(** * VoronoiGenerator: a shallow embedding of [main.c] and its properties

    The C program keeps a static pixel grid [image[HEIGHT][WIDTH]] and a
    static seed array [seeds[SEEDS_COUNT]].  Every routine of [main.c] is
    embedded below as a function that receives the arrays it touches and
    returns the updated ones.  Failing paths ([assert], [exit], a subscript
    outside its array, a stream operation on [NULL]) are results of their
    own, so that "the routine runs to completion" is a statement that can
    be proved or refuted. *)

From Stdlib Require Import ZArith Lia String.
From stdpp Require Import base list.

Local Open Scope Z_scope.

(** ** Machine integers

    [int] is 32 bits wide and signed, [Color] is [uint32_t]; values are
    kept in [Z] and every conversion is written out. *)

Definition wrap_int (z : Z) : Z := (z + 2 ^ 31) mod 2 ^ 32 - 2 ^ 31.
Definition to_uint32 (z : Z) : Z := z mod 2 ^ 32.
Definition to_uint16 (z : Z) : Z := z mod 2 ^ 16.
Definition to_uint8 (z : Z) : Z := z mod 2 ^ 8.

Definition is_int (z : Z) : Prop := - 2 ^ 31 <= z < 2 ^ 31.

Abbreviation Color := Z (only parsing).

Definition COLOR_WHITE : Color := 0xFFFFFFFF.
Definition COLOR_RED : Color := 0xFF0000FF.
Definition COLOR_GREEN : Color := 0xFF00FF00.
Definition COLOR_BLUE : Color := 0xFFFF0000.
Definition COLOR_BLACK : Color := 0xFF000000.
Definition COLOR_BACKGROUND : Color := 0xFF201717.

Definition SEED_MARKER_RADIUS : Z := 4.
Definition SEED_MARKER_COLOR : Color := COLOR_BLACK.

Definition OUTPUT_FILE_PATH : string := "output.ppm".

(** [typedef struct { int x, y; } Vec2;] *)
Module Vec2.
Record t : Type := mk { x : Z; y : Z }.
End Vec2.
Abbreviation Vec2 := Vec2.t (only parsing).

(** ** Outcomes of a run *)

Inductive Fault : Type :=
| AssertionFailed          (* a failed [assert]: the process aborts *)
| OutOfBounds              (* a subscript outside its array *)
| NullStream               (* a stdio call on a [NULL] stream *)
| DivisionByZero           (* [a % 0] *)
| Exited (code : Z).       (* [exit(code)] *)

Inductive result (A : Type) : Type :=
| Ok (a : A)
| Stop (f : Fault).
Arguments Ok {A} a.
Arguments Stop {A} f.

#[global] Instance result_ret : MRet result := fun A a => Ok a.
#[global] Instance result_bind : MBind result := fun A B k m =>
  match m with
  | Ok a => k a
  | Stop f => Stop f
  end.

Definition assert (b : bool) : result unit :=
  if b then Ok tt else Stop AssertionFailed.

(** ** Loops

    [for (i = lo; i < hi; ++i) body] over a state [S]; a [continue] is a
    body that returns its state unchanged.  The counter is bounded by [hi],
    so it never wraps. *)

Fixpoint for_steps {M : Type -> Type} `{!MRet M, !MBind M} {S : Type}
    (n : nat) (i : Z) (body : Z -> S -> M S) (s : S) : M S :=
  match n with
  | O => mret s
  | Datatypes.S n' => body i s ≫= for_steps n' (i + 1) body
  end.

Definition for_range {M : Type -> Type} `{!MRet M, !MBind M} {S : Type}
    (lo hi : Z) (body : Z -> S -> M S) (s : S) : M S :=
  for_steps (Z.to_nat (hi - lo)) lo body s.

(** ** The C library's streams

    A run leaves a trace of the stdio calls that took effect.  What the
    operating system answers is an input of the run: whether [fopen]
    succeeds, the text of [strerror(errno)], the error indicator after
    each [fwrite], the value of [fclose], and the clock. *)

Inductive Stream : Type := OutFile | StdErr.

Inductive Arg : Type := ArgInt (z : Z) | ArgStr (s : string).

Inductive Event : Type :=
| Fopen (path mode : string)
| Fprintf (to : Stream) (format : string) (args : list Arg)
| Fwrite (to : Stream) (bytes : list Z)
| Fclose (to : Stream).

Record OS : Type := mkOS {
  time_now : Z;
  fopen_succeeds : bool;
  strerror_errno : string;
  ferror_after : nat -> bool;
  fclose_result : Z
}.

(** A [FILE *] is [None] when it is [NULL]. *)
Abbreviation FILE_ptr := (option Stream) (only parsing).

Definition IO (A : Type) : Type := list Event -> list Event * result A.

#[global] Instance IO_ret : MRet IO := fun A a tr => (tr, Ok a).
#[global] Instance IO_bind : MBind IO := fun A B k m tr =>
  match m tr with
  | (tr', Ok a) => k a tr'
  | (tr', Stop f) => (tr', Stop f)
  end.

Definition lift {A : Type} (r : result A) : IO A := fun tr => (tr, r).
Definition emit (e : Event) : IO unit := fun tr => (tr ++ [e], Ok tt).
Definition exit {A : Type} (code : Z) : IO A := lift (Stop (Exited code)).

Definition stderr : FILE_ptr := Some StdErr.

Definition fopen (os : OS) (path mode : string) : IO FILE_ptr :=
  _ ← emit (Fopen path mode);
  mret (if fopen_succeeds os then Some OutFile else None).

Definition fprintf (file : FILE_ptr) (format : string) (args : list Arg)
    : IO unit :=
  match file with
  | Some s => emit (Fprintf s format args)
  | None => lift (Stop NullStream)
  end.

Definition fwrite (file : FILE_ptr) (bytes : list Z) : IO unit :=
  match file with
  | Some s => emit (Fwrite s bytes)
  | None => lift (Stop NullStream)
  end.

Fixpoint count_fwrite (tr : list Event) : nat :=
  match tr with
  | [] => O
  | Fwrite _ _ :: tr' => Datatypes.S (count_fwrite tr')
  | _ :: tr' => count_fwrite tr'
  end.

Definition ferror (os : OS) (file : FILE_ptr) : IO bool :=
  match file with
  | Some _ => fun tr => (tr, Ok (ferror_after os (count_fwrite tr)))
  | None => lift (Stop NullStream)
  end.

Definition fclose (os : OS) (file : FILE_ptr) : IO Z :=
  match file with
  | Some s => _ ← emit (Fclose s); mret (fclose_result os)
  | None => lift (Stop NullStream)
  end.

(** ** The pixel grid and the seed array

    [Color image[HEIGHT][WIDTH]] is a list of [HEIGHT] rows of [WIDTH]
    cells, [Vec2 seeds[SEEDS_COUNT]] a list of points.  A subscript
    outside the bounds of its dimension stops the run with
    [OutOfBounds]. *)

Abbreviation Image := (list (list Z)) (only parsing).

(** [seeds[i]] *)
Definition seeds_get (seeds : list Vec2) (i : Z) : result Vec2 :=
  if 0 <=? i then
    match seeds !! Z.to_nat i with
    | Some s => Ok s
    | None => Stop OutOfBounds
    end
  else Stop OutOfBounds.

(** [seeds[i].x = v] and [seeds[i].y = v] *)
Definition seeds_set_x (seeds : list Vec2) (i v : Z) : result (list Vec2) :=
  if (0 <=? i) && (i <? Z.of_nat (length seeds)) then
    Ok (alter (fun s => Vec2.mk v (Vec2.y s)) (Z.to_nat i) seeds)
  else Stop OutOfBounds.

Definition seeds_set_y (seeds : list Vec2) (i v : Z) : result (list Vec2) :=
  if (0 <=? i) && (i <? Z.of_nat (length seeds)) then
    Ok (alter (fun s => Vec2.mk (Vec2.x s) v) (Z.to_nat i) seeds)
  else Stop OutOfBounds.

(** [a % b] on [int] operands: the remainder of the truncating division *)
Definition int_rem (a b : Z) : result Z :=
  if b =? 0 then Stop DivisionByZero else Ok (wrap_int (Z.rem a b)).

(** [int SquareDistance(Vec2 a, Vec2 b)] *)
Definition SquareDistance (a b : Vec2) : Z :=
  let dx := wrap_int (Vec2.x a - Vec2.x b) in
  let dy := wrap_int (Vec2.y a - Vec2.y b) in
  wrap_int (wrap_int (dx * dx) + wrap_int (dy * dy)).

(** [Color SeedToColor(Vec2 point)] *)
Definition SeedToColor (point : Vec2) : result Color :=
  _ ← assert (Vec2.x point >=? 0);
  _ ← assert (Vec2.y point >=? 0);
  _ ← assert (Vec2.x point <? wrap_int (Z.shiftl 1 16));
  _ ← assert (Vec2.y point <? wrap_int (Z.shiftl 1 16));
  let lf := to_uint16 (Vec2.x point) in
  let rg := to_uint16 (Vec2.y point) in
  Ok (to_uint32 (Z.lxor (wrap_int (Z.shiftl lf 16)) rg)).

(** *** The distances of the documented copy of the file

    The copy of [main.c] that carries the doc comments names the squared
    distance [EuclideanDistance] and adds [ManhattanDistance]. *)

(** [int abs(int)] of [<stdlib.h>] *)
Definition int_abs (z : Z) : Z := wrap_int (Z.abs z).


(** [int ManhattanDistance(Vec2 pointA, Vec2 pointB)] *)
Definition ManhattanDistance (pointA pointB : Vec2) : Z :=
  let dx := int_abs (wrap_int (Vec2.x pointA - Vec2.x pointB)) in
  let dy := int_abs (wrap_int (Vec2.y pointA - Vec2.y pointB)) in
  wrap_int (dx + dy).

(** The configuration [main.c] is compiled with *)
Module Source.
Definition WIDTH : Z := 1000.
Definition HEIGHT : Z := 1000.
Definition SEEDS_COUNT : Z := 50.
End Source.

(** ** The end-to-end scenario of the specification

    A raster of 10 by 10 pixels with the seeds (2, 2) and (7, 7), and a
    linear congruential generator standing for [rand]. *)

Definition scenario_seeds : list Vec2 := [Vec2.mk 2 2; Vec2.mk 7 7].

Definition scenario_image : Image :=
  replicate (Z.to_nat 10) (replicate (Z.to_nat 10) 0).

Definition lcg_rand (state : Z) : Z * Z :=
  let next := (state * 1103515245 + 12345) mod 2 ^ 31 in
  (next, next).

Definition quiet_os : OS := mkOS 0 true "Success" (fun _ => false) 0.

(** Operating systems that fail: at [fopen], at the third [fwrite], and
    at [fclose]. *)
Definition no_file_os : OS :=
  mkOS 0 false "Permission denied" (fun _ => false) 0.

Definition full_disk_os : OS :=
  mkOS 0 true "No space left on device" (fun n => Nat.leb 3 n) 0.

Definition bad_close_os : OS :=
  mkOS 0 true "Input/output error" (fun _ => false) (-1).

Section Raster.

(** [#define WIDTH], [#define HEIGHT], [#define SEEDS_COUNT] *)
Variables (WIDTH HEIGHT SEEDS_COUNT : Z).

Definition in_image (row col : Z) : bool :=
  (0 <=? row) && (row <? HEIGHT) && (0 <=? col) && (col <? WIDTH).

(** The cell of the grid at a subscript pair inside the declared bounds *)
Definition cell (image : Image) (row col : Z) : option Color :=
  if in_image row col then image !! Z.to_nat row ≫= (.!! Z.to_nat col)
  else None.

(** The grid has the shape of its declaration [image[HEIGHT][WIDTH]] *)
Definition image_shape (image : Image) : Prop :=
  length image = Z.to_nat HEIGHT /\
  Forall (fun r => length r = Z.to_nat WIDTH) image.

(** [image[row][col]] read *)
Definition image_get (image : Image) (row col : Z) : result Color :=
  match cell image row col with
  | Some c => Ok c
  | None => Stop OutOfBounds
  end.

(** [image[row][col] = c] *)
Definition image_set (image : Image) (row col : Z) (c : Color)
    : result Image :=
  if in_image row col then
    Ok (alter (<[Z.to_nat col := c]>) (Z.to_nat row) image)
  else Stop OutOfBounds.

(** [void FillImage(Color color)] *)
Definition FillImage (color : Color) (image : Image) : result Image :=
  for_range 0 HEIGHT (fun y image =>
    for_range 0 WIDTH (fun x image =>
      image_set image x y color) image) image.

(** [void FillCircle(Vec2 origin, int radius, Color color)] *)
Definition FillCircle (origin : Vec2) (radius : Z) (color : Color)
    (image : Image) : result Image :=
  let beginCorner := Vec2.mk (wrap_int (Vec2.x origin - radius))
                             (wrap_int (Vec2.y origin - radius)) in
  let endCorner := Vec2.mk (wrap_int (Vec2.x origin + radius))
                           (wrap_int (Vec2.y origin + radius)) in
  for_range (Vec2.x beginCorner) (Vec2.x endCorner) (fun x image =>
    if negb ((0 <=? x) && (x <? WIDTH)) then Ok image
    else
      for_range (Vec2.y beginCorner) (Vec2.y endCorner) (fun y image =>
        if negb ((0 <=? y) && (y <? HEIGHT)) then Ok image
        else
          let point := Vec2.mk x y in
          if SquareDistance origin point <=? wrap_int (radius * radius)
          then image_set image y x color
          else Ok image) image) image.

(** [void RenderSeedMarkers()] *)
Definition RenderSeedMarkers (seeds : list Vec2) (image : Image)
    : result Image :=
  for_range 0 SEEDS_COUNT (fun i image =>
    s ← seeds_get seeds i;
    FillCircle s SEED_MARKER_RADIUS SEED_MARKER_COLOR image) image.

(** The innermost loop of [RenderVoronoi]: the scan of the seed array
    for the pixel [point], started from [closestSeedIdx]. *)
Definition closest_seed_scan (seeds : list Vec2) (point : Vec2)
    (closestSeedIdx : Z) : result Z :=
  for_range 1 SEEDS_COUNT (fun i closestSeedIdx =>
    si ← seeds_get seeds i;
    let currDist := SquareDistance si point in
    sc ← seeds_get seeds closestSeedIdx;
    let closestDist := SquareDistance sc point in
    if currDist <? closestDist then Ok (wrap_int i)
    else Ok closestSeedIdx) closestSeedIdx.

(** [void RenderVoronoi()] *)
Definition RenderVoronoi (seeds : list Vec2) (image : Image)
    : result Image :=
  for_range 0 HEIGHT (fun y image =>
    for_range 0 WIDTH (fun x image =>
      let closestSeedIdx := 0 in
      let point := Vec2.mk x y in
      closestSeedIdx ← closest_seed_scan seeds point closestSeedIdx;
      s ← seeds_get seeds closestSeedIdx;
      let seedPos := Vec2.mk (Vec2.x s) (Vec2.y s) in
      c ← SeedToColor seedPos;
      image_set image y x c) image) image.

(** *** The C library's generator

    [rand] is taken as a transition on the generator's hidden state;
    [srand] builds that state from its argument. *)
Section Rand.
Variable RandState : Type.
Variable rand : RandState -> Z * RandState.

(** [void GenerateRandomSeeds()] *)
Definition GenerateRandomSeeds (seeds : list Vec2) (rs : RandState)
    : result (list Vec2 * RandState) :=
  for_range 0 SEEDS_COUNT (fun i '(seeds, rs) =>
    let '(r, rs) := rand rs in
    v ← int_rem r WIDTH;
    seeds ← seeds_set_x seeds i v;
    let '(r, rs) := rand rs in
    v ← int_rem r HEIGHT;
    seeds ← seeds_set_y seeds i v;
    Ok (seeds, rs)) (seeds, rs).
End Rand.

(** [uint8_t bytes[3]] of the body of [SaveImageAsPPM] *)
Definition pixel_bytes (pixel : Color) : list Z :=
  [ to_uint8 (Z.shiftr (Z.land pixel 0x0000FF) (8 * 0));
    to_uint8 (Z.shiftr (Z.land pixel 0x00FF00) (8 * 1));
    to_uint8 (Z.shiftr (Z.land pixel 0xFF0000) (8 * 2)) ].

(** [void SaveImageAsPPM(const char *filePath)].  The format strings
    are kept as the source spells them. *)
Definition SaveImageAsPPM (os : OS) (filePath : string) (image : Image)
    : IO unit :=
  file ← fopen os filePath "wb";
  _ ← fprintf file "P6\n" [];
  _ ← fprintf file "%d %d 255\n" [ArgInt WIDTH; ArgInt HEIGHT];
  _ ← (if file is None then
         _ ← fprintf stderr "ERROR: cannot write into file %s: %s\n"
               [ArgStr filePath; ArgStr (strerror_errno os)];
         exit 1
       else mret tt);
  _ ← for_range 0 HEIGHT (fun y (_ : unit) =>
        for_range 0 WIDTH (fun x (_ : unit) =>
          pixel ← lift (image_get image y x);
          let bytes := pixel_bytes pixel in
          _ ← fwrite file bytes;
          e ← ferror os file;
          lift (assert (negb e))) tt) tt;
  err ← fclose os file;
  lift (assert (err =? 0)).

(** [int main(void)], started on the zero-initialised static arrays. *)
Section Main.
Variable RandState : Type.
Variable srand : Z -> RandState.
Variable rand : RandState -> Z * RandState.

Definition main (os : OS) : list Event * result Z :=
  let image := replicate (Z.to_nat HEIGHT) (replicate (Z.to_nat WIDTH) 0) in
  let seeds := replicate (Z.to_nat SEEDS_COUNT) (Vec2.mk 0 0) in
  (let rs := srand (time_now os) in
   image ← lift (FillImage COLOR_BACKGROUND image);
   '(seeds, rs) ← lift (GenerateRandomSeeds RandState rand seeds rs);
   image ← lift (RenderVoronoi seeds image);
   image ← lift (RenderSeedMarkers seeds image);
   _ ← SaveImageAsPPM os OUTPUT_FILE_PATH image;
   mret 0) [].
End Main.

(** ** Vocabulary of the specification *)

(** The fill the specification describes: every cell written through
    [image[y][x]], row by row. *)
Definition FillImage_rowmajor (color : Color) (image : Image)
    : result Image :=
  for_range 0 HEIGHT (fun y image =>
    for_range 0 WIDTH (fun x image =>
      image_set image y x color) image) image.

(** The squared Euclidean distance, over the integers *)
Definition sq_dist (a b : Vec2) : Z :=
  (Vec2.x a - Vec2.x b) * (Vec2.x a - Vec2.x b) +
  (Vec2.y a - Vec2.y b) * (Vec2.y a - Vec2.y b).

(** A point of the raster [[0, WIDTH) x [0, HEIGHT)] *)
Definition in_raster (p : Vec2) : Prop :=
  0 <= Vec2.x p < WIDTH /\ 0 <= Vec2.y p < HEIGHT.

(** A point whose coordinates fit in 16 bits *)
Definition packable (p : Vec2) : Prop :=
  0 <= Vec2.x p < 65536 /\ 0 <= Vec2.y p < 65536.

(** [x] in the high 16 bits, XOR [y] *)
Definition pack (p : Vec2) : Color :=
  Z.lxor (Z.shiftl (Vec2.x p) 16) (Vec2.y p).

(** The seed array has its declared length, which an [int] can hold *)
Definition seeds_shape (seeds : list Vec2) : Prop :=
  SEEDS_COUNT = Z.of_nat (length seeds) /\ SEEDS_COUNT < 2 ^ 31.

(** [f] runs to completion on every grid of the declared shape, stores
    [color] into the cells that satisfy [Q] and leaves the others as they
    were. *)
Definition paints (color : Color) (f : Image -> result Image)
    (Q : Z -> Z -> Prop) : Prop :=
  forall image, image_shape image ->
    exists image',
      f image = Ok image' /\ image_shape image' /\
      forall row col,
        (Q row col -> cell image' row col = Some color) /\
        (~ Q row col -> cell image' row col = cell image row col) /\
        (cell image' row col = Some color \/
         cell image' row col = cell image row col).

(** The cells [FillCircle] stores into: the half-open square around the
    origin, cut to the grid, under the distance test. *)
Definition FillCircle_covers (origin : Vec2) (radius : Z) (row col : Z)
    : bool :=
  in_image row col &&
  (wrap_int (Vec2.x origin - radius) <=? col) &&
  (col <? wrap_int (Vec2.x origin + radius)) &&
  (wrap_int (Vec2.y origin - radius) <=? row) &&
  (row <? wrap_int (Vec2.y origin + radius)) &&
  (SquareDistance origin (Vec2.mk col row) <=? wrap_int (radius * radius)).

(** What the body of [RenderVoronoi] computes for the pixel [(x, y)]
    before it stores it *)
Definition voronoi_pixel (seeds : list Vec2) (x y : Z) : result Color :=
  closestSeedIdx ← closest_seed_scan seeds (Vec2.mk x y) 0;
  s ← seeds_get seeds closestSeedIdx;
  SeedToColor (Vec2.mk (Vec2.x s) (Vec2.y s)).

Definition result_or {A : Type} (d : A) (r : result A) : A :=
  match r with
  | Ok a => a
  | Stop _ => d
  end.

(** The coordinates read back from a packed colour *)
Definition unpack (c : Color) : Vec2 :=
  Vec2.mk (Z.shiftr c 16) (Z.land c 0xFFFF).

(** The seeds [n] rounds of two draws give, [x] drawn before [y], and
    the generator they leave *)
Fixpoint seeds_from {RandState : Type} (rand : RandState -> Z * RandState)
    (n : nat) (rs : RandState) : list Vec2 * RandState :=
  match n with
  | O => ([], rs)
  | Datatypes.S n' =>
      let '(r1, rs1) := rand rs in
      let '(r2, rs2) := rand rs1 in
      let '(rest, rs') := seeds_from rand n' rs2 in
      (Vec2.mk (wrap_int (Z.rem r1 WIDTH)) (wrap_int (Z.rem r2 HEIGHT))
         :: rest, rs')
  end.

(** A point far enough from the limits of [int] for differences and
    their sums to stay in range *)
Definition small (p : Vec2) : Prop :=
  - 2 ^ 29 <= Vec2.x p < 2 ^ 29 /\ - 2 ^ 29 <= Vec2.y p < 2 ^ 29.

(** The file a successful [SaveImageAsPPM] leaves behind *)
Definition ppm_trace (filePath : string) (image : Image) : list Event :=
  [ Fopen filePath "wb";
    Fprintf OutFile "P6\n" [];
    Fprintf OutFile "%d %d 255\n" [ArgInt WIDTH; ArgInt HEIGHT] ] ++
  (Fwrite OutFile ∘ pixel_bytes <$> concat image) ++
  [ Fclose OutFile ].

(** ** Properties *)

(** *** Integers in range are not changed by the conversions *)

Lemma wrap_int_id (z : Z) : is_int z -> wrap_int z = z.
Proof.
  unfold is_int, wrap_int. intros Hz.
  rewrite Z.mod_small; lia.
Qed.

Lemma SquareDistance_exact (a b : Vec2) :
  - 2 ^ 15 < Vec2.x a - Vec2.x b < 2 ^ 15 ->
  - 2 ^ 15 < Vec2.y a - Vec2.y b < 2 ^ 15 ->
  SquareDistance a b =
    (Vec2.x a - Vec2.x b) * (Vec2.x a - Vec2.x b) +
    (Vec2.y a - Vec2.y b) * (Vec2.y a - Vec2.y b).
Proof.
  intros Hx Hy. unfold SquareDistance. cbv zeta.
  rewrite !(wrap_int_id (_ - _)) by (unfold is_int; lia).
  rewrite !(wrap_int_id (_ * _)) by (unfold is_int; nia).
  apply wrap_int_id. unfold is_int. nia.
Qed.

(** *** Loops in the [result] monad *)

Lemma for_steps_inv {S : Type} (Inv : Z -> S -> Prop)
    (body : Z -> S -> result S) (n : nat) (i : Z) (s : S) :
  Inv i s ->
  (forall j t, i <= j < i + Z.of_nat n -> Inv j t ->
     exists t', body j t = Ok t' /\ Inv (j + 1) t') ->
  exists s', for_steps n i body s = Ok s' /\ Inv (i + Z.of_nat n) s'.
Proof.
  revert i s. induction n as [|n IH]; intros i s Hi Hstep.
  - exists s. split; [reflexivity|]. by rewrite Z.add_0_r.
  - destruct (Hstep i s) as (t & Ht & Hinv); [lia|done|].
    destruct (IH (i + 1) t) as (s' & Hs' & Hinv'); [done| |].
    + intros j u Hj Hu. apply Hstep; [lia|done].
    + exists s'. split.
      * cbn. rewrite Ht. exact Hs'.
      * by replace (i + Z.of_nat (Datatypes.S n)) with (i + 1 + Z.of_nat n) by lia.
Qed.

Lemma for_range_inv {S : Type} (Inv : Z -> S -> Prop)
    (body : Z -> S -> result S) (lo hi : Z) (s : S) :
  lo <= hi ->
  Inv lo s ->
  (forall j t, lo <= j < hi -> Inv j t ->
     exists t', body j t = Ok t' /\ Inv (j + 1) t') ->
  exists s', for_range lo hi body s = Ok s' /\ Inv hi s'.
Proof.
  intros Hle Hlo Hstep. unfold for_range.
  destruct (for_steps_inv Inv body (Z.to_nat (hi - lo)) lo s) as (s' & Hs' & Hinv).
  - done.
  - intros j t Hj. apply Hstep. lia.
  - exists s'. split; [done|].
    replace (lo + Z.of_nat (Z.to_nat (hi - lo))) with hi in Hinv by lia.
    exact Hinv.
Qed.

Lemma for_range_inv_max {S : Type} (Inv : Z -> S -> Prop)
    (body : Z -> S -> result S) (lo hi : Z) (s : S) :
  Inv lo s ->
  (forall j t, lo <= j < hi -> Inv j t ->
     exists t', body j t = Ok t' /\ Inv (j + 1) t') ->
  exists s', for_range lo hi body s = Ok s' /\ Inv (Z.max lo hi) s'.
Proof.
  intros Hlo Hstep.
  destruct (Z.le_gt_cases lo hi) as [Hle|Hgt].
  - rewrite Z.max_r by done. by apply for_range_inv.
  - exists s. rewrite Z.max_l by lia. split; [|done].
    unfold for_range. by replace (Z.to_nat (hi - lo)) with O by lia.
Qed.

Lemma for_range_empty {S : Type} (body : Z -> S -> result S) (lo hi : Z) (s : S) :
  hi <= lo -> for_range lo hi body s = Ok s.
Proof.
  intros Hle. unfold for_range. by replace (Z.to_nat (hi - lo)) with O by lia.
Qed.

(** *** The pixel grid *)

Lemma in_image_spec (row col : Z) :
  in_image row col = true <-> (0 <= row < HEIGHT /\ 0 <= col < WIDTH).
Proof. unfold in_image. rewrite !andb_true_iff. lia. Qed.

Lemma image_set_ok (image : Image) (row col : Z) (c : Color) :
  image_shape image ->
  in_image row col = true ->
  exists image',
    image_set image row col c = Ok image' /\
    image_shape image' /\
    cell image' row col = Some c /\
    (forall row' col', row' <> row \/ col' <> col ->
       cell image' row' col' = cell image row' col').
Proof.
  intros [Hlen Hrows] Hin. unfold image_set. rewrite Hin.
  eexists. split; [reflexivity|].
  apply in_image_spec in Hin as Hb.
  destruct (lookup_lt_is_Some_2 image (Z.to_nat row)) as [r Hr]; [lia|].
  assert (length r = Z.to_nat WIDTH) as Hlr
    by (eapply (Forall_lookup_1 _ _ _ _ Hrows); eassumption).
  split; [|split].
  - split; [by rewrite length_alter|].
    apply Forall_alter; [done|]. intros r' _ Hr'. by rewrite length_insert.
  - unfold cell. rewrite Hin, list_lookup_alter_eq, Hr. cbn.
    apply list_lookup_insert_eq. lia.
  - intros row' col' Hne. unfold cell.
    destruct (in_image row' col') eqn:Hin'; [|done].
    apply in_image_spec in Hin'.
    destruct (decide (row' = row)) as [->|Hrow].
    + rewrite list_lookup_alter_eq, Hr. cbn.
      apply list_lookup_insert_ne. lia.
    + rewrite list_lookup_alter_ne; [done|lia].
Qed.

Lemma image_ext (image1 image2 : Image) :
  image_shape image1 -> image_shape image2 ->
  (forall row col, in_image row col = true ->
     cell image1 row col = cell image2 row col) ->
  image1 = image2.
Proof.
  intros [Hlen1 Hrows1] [Hlen2 Hrows2] Hcell.
  apply list_eq. intros i.
  destruct (decide (i < Z.to_nat HEIGHT)%nat) as [Hi|Hi].
  - destruct (lookup_lt_is_Some_2 image1 i) as [r1 Hr1]; [lia|].
    destruct (lookup_lt_is_Some_2 image2 i) as [r2 Hr2]; [lia|].
    rewrite Hr1, Hr2. f_equal.
    pose proof (Forall_lookup_1 _ _ _ _ Hrows1 Hr1) as Hl1.
    pose proof (Forall_lookup_1 _ _ _ _ Hrows2 Hr2) as Hl2.
    cbn in Hl1, Hl2.
    apply list_eq. intros j.
    destruct (decide (j < Z.to_nat WIDTH)%nat) as [Hj|Hj].
    + specialize (Hcell (Z.of_nat i) (Z.of_nat j)).
      unfold cell in Hcell.
      assert (in_image (Z.of_nat i) (Z.of_nat j) = true) as Hin
        by (apply in_image_spec; lia).
      rewrite Hin, !Nat2Z.id, Hr1, Hr2 in Hcell. by apply Hcell.
    + rewrite !(proj2 (lookup_ge_None _ _)); [done|lia|lia].
  - rewrite !(proj2 (lookup_ge_None _ _)); [done|lia|lia].
Qed.

(** Two nested counting loops whose body stores [F a b] into the cell
    [pos a b], one cell per pair: the loops run to completion and leave
    [F a b] in every cell they visit. *)
Lemma fill_loops (A B : Z) (pos : Z -> Z -> Z * Z) (F : Z -> Z -> Color)
    (body : Z -> Z -> Image -> result Image) (image : Image) :
  (forall a b, 0 <= a < A -> 0 <= b < B ->
     in_image (pos a b).1 (pos a b).2 = true) ->
  (forall a b a' b', 0 <= a < A -> 0 <= b < B -> 0 <= a' < A -> 0 <= b' < B ->
     pos a b = pos a' b' -> a = a' /\ b = b') ->
  (forall a b img, 0 <= a < A -> 0 <= b < B ->
     body a b img = image_set img (pos a b).1 (pos a b).2 (F a b)) ->
  image_shape image ->
  exists image',
    for_range 0 A (fun a img => for_range 0 B (fun b img => body a b img) img)
      image = Ok image' /\
    image_shape image' /\
    (forall a b, 0 <= a < A -> 0 <= b < B ->
       cell image' (pos a b).1 (pos a b).2 = Some (F a b)).
Proof.
  intros Hin Hinj Hbody Hshape.
  destruct (for_range_inv_max
    (fun a img => image_shape img /\
       forall a' b', 0 <= a' < a -> 0 <= a' < A -> 0 <= b' < B ->
         cell img (pos a' b').1 (pos a' b').2 = Some (F a' b'))
    (fun a img => for_range 0 B (fun b img => body a b img) img)
    0 A image) as (image' & Hrun & Hsh & Hcells).
  - split; [done|]. intros; lia.
  - intros a img Ha [Hsh Hdone].
    destruct (for_range_inv_max
      (fun b img => image_shape img /\
         forall a' b', 0 <= a' < A -> 0 <= b' < B ->
           a' < a \/ (a' = a /\ b' < b) ->
           cell img (pos a' b').1 (pos a' b').2 = Some (F a' b'))
      (fun b img => body a b img) 0 B img)
      as (img' & Hrun' & Hsh' & Hcells').
    + split; [done|]. intros a' b' Ha' Hb' [Hlt|[_ Hlt]]; [|lia].
      apply Hdone; lia.
    + intros b t Hb [Hsht Hdonet].
      rewrite Hbody by lia.
      destruct (image_set_ok t (pos a b).1 (pos a b).2 (F a b))
        as (t' & Hset & Hsht' & Hsame & Hother); [done|by apply Hin|].
      exists t'. split; [done|]. split; [done|].
      intros a' b' Ha' Hb' Hprev.
      destruct (decide (a' = a /\ b' = b)) as [[-> ->]|Hne]; [done|].
      rewrite Hother.
      * apply Hdonet; [done|done|lia].
      * destruct (decide ((pos a' b').1 = (pos a b).1)) as [E1|]; [|by left].
        destruct (decide ((pos a' b').2 = (pos a b).2)) as [E2|]; [|by right].
        exfalso. apply Hne. apply Hinj; [done..|].
        destruct (pos a' b'), (pos a b). cbn in *. congruence.
    + exists img'. split; [done|]. split; [done|].
      intros a' b' Ha' Ha'' Hb'.
      apply Hcells'; [lia|done|]. lia.
  - exists image'. split; [done|]. split; [done|].
    intros a b Ha Hb. apply Hcells; [lia|done|done].
Qed.

(** *** Bit-level facts about colours *)

Lemma wrap_int_mod (z : Z) : wrap_int z mod 2 ^ 32 = z mod 2 ^ 32.
Proof.
  unfold wrap_int.
  change (2 ^ 32) with 4294967296. change (2 ^ 31) with 2147483648.
  Z.div_mod_to_equations. lia.
Qed.

Lemma testbit_above (a n m : Z) :
  0 <= a < 2 ^ m -> 0 <= m <= n -> Z.testbit a n = false.
Proof.
  intros Ha Hn. rewrite <- (Z.mod_small a (2 ^ m)) by done.
  by apply Z.mod_pow2_bits_high.
Qed.

Lemma pack_exact (x y : Z) :
  0 <= x < 65536 -> 0 <= y < 65536 ->
  to_uint32 (Z.lxor (wrap_int (Z.shiftl (to_uint16 x) 16)) (to_uint16 y))
  = Z.lxor (Z.shiftl x 16) y.
Proof.
  intros Hx Hy. unfold to_uint16, to_uint32.
  rewrite (Z.mod_small x), (Z.mod_small y)
    by (change (2 ^ 16) with 65536; lia).
  assert (0 <= Z.shiftl x 16 < 2 ^ 32) as HX.
  { rewrite Z.shiftl_mul_pow2 by lia.
    change (2 ^ 16) with 65536. change (2 ^ 32) with 4294967296. lia. }
  apply Z.bits_inj'. intros n Hn.
  destruct (Z.lt_ge_cases n 32) as [Hlt|Hge].
  - rewrite Z.mod_pow2_bits_low by done.
    rewrite !Z.lxor_spec. f_equal.
    rewrite <- (Z.mod_pow2_bits_low (wrap_int _) 32 n) by done.
    rewrite wrap_int_mod. by apply Z.mod_pow2_bits_low.
  - rewrite Z.mod_pow2_bits_high by lia.
    rewrite Z.lxor_spec.
    rewrite (testbit_above (Z.shiftl x 16) n 32) by (done || lia).
    rewrite (testbit_above y n 32); [done| |lia].
    change (2 ^ 32) with 4294967296. lia.
Qed.

Lemma SeedToColor_pack (point : Vec2) :
  packable point -> SeedToColor point = Ok (pack point).
Proof.
  intros [Hx Hy]. unfold SeedToColor, pack.
  change (wrap_int (Z.shiftl 1 16)) with 65536.
  replace (Vec2.x point >=? 0) with true by lia.
  replace (Vec2.y point >=? 0) with true by lia.
  replace (Vec2.x point <? 65536) with true by lia.
  replace (Vec2.y point <? 65536) with true by lia.
  cbn. f_equal. by apply pack_exact.
Qed.

Lemma pack_high_bits (p : Vec2) :
  packable p -> Z.shiftr (pack p) 16 = Vec2.x p.
Proof.
  intros [Hx Hy]. unfold pack.
  rewrite Z.shiftr_lxor, Z.shiftr_shiftl_l by lia.
  rewrite Z.sub_diag, Z.shiftl_0_r.
  rewrite (Z.shiftr_div_pow2 (Vec2.y p)) by lia.
  rewrite Z.div_small by (change (2 ^ 16) with 65536; lia).
  apply Z.lxor_0_r.
Qed.

Lemma byte_of_land (pixel k : Z) :
  0 <= k ->
  to_uint8 (Z.shiftr (Z.land pixel (Z.shiftl 255 k)) k)
  = (pixel / 2 ^ k) mod 256.
Proof.
  intros Hk. unfold to_uint8.
  rewrite Z.shiftr_land, Z.shiftr_shiftl_l by done.
  rewrite Z.sub_diag, Z.shiftl_0_r.
  change 255 with (Z.ones 8). rewrite Z.land_ones by lia.
  rewrite Z.mod_mod by (change (2 ^ 8) with 256; lia).
  by rewrite Z.shiftr_div_pow2.
Qed.

Lemma pixel_bytes_spec (pixel : Color) :
  pixel_bytes pixel =
    [ pixel mod 256; (pixel / 256) mod 256; (pixel / 65536) mod 256 ].
Proof.
  unfold pixel_bytes.
  change 0x0000FF with (Z.shiftl 255 (8 * 0)).
  change 0x00FF00 with (Z.shiftl 255 (8 * 1)).
  change 0xFF0000 with (Z.shiftl 255 (8 * 2)).
  rewrite !byte_of_land by lia.
  change (2 ^ (8 * 0)) with 1. change (2 ^ (8 * 1)) with 256.
  change (2 ^ (8 * 2)) with 65536.
  by rewrite Z.div_1_r.
Qed.

(** *** Painting with one colour *)

Lemma paints_skip (color : Color) : paints color Ok (fun _ _ => False).
Proof.
  intros image Hsh. exists image. split; [done|]. split; [done|].
  intros row col. split; [done|]. split; [done|]. by right.
Qed.

Lemma paints_set (color : Color) (row0 col0 : Z) :
  in_image row0 col0 = true ->
  paints color (fun image => image_set image row0 col0 color)
    (fun row col => row = row0 /\ col = col0).
Proof.
  intros Hin image Hsh.
  destruct (image_set_ok image row0 col0 color Hsh Hin)
    as (image' & Hset & Hsh' & Hsame & Hother).
  exists image'. split; [done|]. split; [done|].
  intros row col. split; [by intros [-> ->]|]. split.
  - intros Hne. apply Hother.
    destruct (decide (row = row0)); [|by left].
    destruct (decide (col = col0)); [|by right]. tauto.
  - destruct (decide (row = row0)) as [->|]; [|right; apply Hother; by left].
    destruct (decide (col = col0)) as [->|]; [by left|].
    right. apply Hother. by right.
Qed.

Lemma paints_equiv (color : Color) (f : Image -> result Image)
    (Q Q' : Z -> Z -> Prop) :
  (forall row col, Q row col <-> Q' row col) ->
  paints color f Q -> paints color f Q'.
Proof.
  intros Heq Hp image Hsh.
  destruct (Hp image Hsh) as (image' & Hrun & Hsh' & Hcells).
  exists image'. split; [done|]. split; [done|].
  intros row col. destruct (Hcells row col) as (Hyes & Hno & Hor).
  split; [|split]; [| |done].
  - intros HQ. by apply Hyes, Heq.
  - intros HQ. apply Hno. by rewrite Heq.
Qed.

Lemma paints_for_range (color : Color) (lo hi : Z)
    (body : Z -> Image -> result Image) (Q : Z -> Z -> Z -> Prop) :
  (forall j, lo <= j < hi -> paints color (body j) (Q j)) ->
  paints color (for_range lo hi body)
    (fun row col => exists j, lo <= j < hi /\ Q j row col).
Proof.
  intros Hbody image Hsh.
  destruct (Z.le_gt_cases lo hi) as [Hle|Hgt].
  - destruct (for_range_inv
      (fun k img => image_shape img /\
         forall row col,
           ((exists j, lo <= j < k /\ Q j row col) ->
              cell img row col = Some color) /\
           (~ (exists j, lo <= j < k /\ Q j row col) ->
              cell img row col = cell image row col) /\
           (cell img row col = Some color \/
            cell img row col = cell image row col))
      body lo hi image) as (image' & Hrun & Hsh' & Hcells); [done| | |].
    + split; [done|]. intros row col. split; [|split].
      * intros (j & Hj & _). lia.
      * done.
      * by right.
    + intros k img Hk [Hshk Hinv].
      destruct (Hbody k Hk img Hshk) as (img' & Hrun & Hsh' & Hstep).
      exists img'. split; [done|]. split; [done|].
      intros row col.
      destruct (Hinv row col) as (Hyes & Hno & Hor).
      destruct (Hstep row col) as (Hyes' & Hno' & Hor').
      split; [|split].
      * intros (j & Hj & HQ).
        destruct (decide (j = k)) as [->|Hne]; [by apply Hyes'|].
        destruct Hor' as [->| ->]; [done|].
        apply Hyes. exists j. split; [lia|done].
      * intros Hnone. rewrite Hno'.
        -- apply Hno. intros (j & Hj & HQ). apply Hnone.
           exists j. split; [lia|done].
        -- intros HQ. apply Hnone. exists k. split; [lia|done].
      * destruct Hor' as [->| ->]; [by left|done].
    + exists image'. by split.
  - exists image. rewrite for_range_empty by lia.
    split; [done|]. split; [done|]. intros row col. split; [|split].
    + intros (j & Hj & _). lia.
    + done.
    + by right.
Qed.

Lemma paints_FillCircle (origin : Vec2) (radius : Z) (color : Color) :
  paints color (FillCircle origin radius color)
    (fun row col => FillCircle_covers origin radius row col = true).
Proof.
  unfold FillCircle. cbv zeta. cbn [Vec2.x Vec2.y].
  eapply paints_equiv; [|apply paints_for_range with
    (Q := fun x row col => col = x /\
       exists y, wrap_int (Vec2.y origin - radius) <= y
                   < wrap_int (Vec2.y origin + radius) /\
         row = y /\ in_image row col = true /\
         (SquareDistance origin (Vec2.mk col row)
            <=? wrap_int (radius * radius)) = true)].
  - intros row col. unfold FillCircle_covers.
    rewrite !andb_true_iff. split.
    + intros (x & Hx & -> & y & Hy & -> & Hin & Hd).
      repeat split; try done; try (apply Z.leb_le; lia); apply Z.ltb_lt; lia.
    + intros (((((Hin & Hx1) & Hx2) & Hy1) & Hy2) & Hd).
      apply Z.leb_le in Hx1, Hy1. apply Z.ltb_lt in Hx2, Hy2.
      exists col. split; [lia|]. split; [done|].
      exists row. split; [lia|]. done.
  - intros x Hx.
    destruct ((0 <=? x) && (x <? WIDTH)) eqn:Hxin; cbn [negb].
    + eapply paints_equiv; [|apply paints_for_range with
        (Q := fun y row col => row = y /\ col = x /\
           in_image row col = true /\
           (SquareDistance origin (Vec2.mk col row)
              <=? wrap_int (radius * radius)) = true)].
      * intros row col. split.
        -- intros (y & Hy & -> & -> & Hin & Hd). split; [done|].
           exists y. tauto.
        -- intros (-> & y & Hy & -> & Hin & Hd). exists y. tauto.
      * intros y Hy.
        destruct ((0 <=? y) && (y <? HEIGHT)) eqn:Hyin; cbn [negb].
        -- assert (in_image y x = true) as Hin.
           { unfold in_image. apply andb_true_iff in Hxin as [-> ->].
             apply andb_true_iff in Hyin as [-> ->]. done. }
           destruct (SquareDistance origin (Vec2.mk x y)
                       <=? wrap_int (radius * radius)) eqn:Hd.
           ++ eapply paints_equiv; [|by apply paints_set].
              intros row col. split.
              ** intros [-> ->]. tauto.
              ** tauto.
           ++ eapply paints_equiv; [|apply paints_skip].
              intros row col. split; [done|].
              intros (-> & -> & _ & Hd'). congruence.
        -- eapply paints_equiv; [|apply paints_skip].
           intros row col. split; [done|].
           intros (-> & -> & Hin & _). unfold in_image in Hin.
           rewrite !andb_true_iff in Hin. rewrite andb_false_iff in Hyin.
           destruct Hin as [[[? ?] ?] ?]. destruct Hyin; congruence.
    + eapply paints_equiv; [|apply paints_skip].
      intros row col. split; [done|].
      intros (-> & y & _ & _ & Hin & _). unfold in_image in Hin.
      rewrite !andb_true_iff in Hin. rewrite andb_false_iff in Hxin.
      destruct Hin as [[[? ?] ?] ?]. destruct Hxin; congruence.
Qed.

Lemma seeds_get_Ok (seeds : list Vec2) (i : Z) (s : Vec2) :
  seeds_get seeds i = Ok s <->
  0 <= i < Z.of_nat (length seeds) /\ seeds !! Z.to_nat i = Some s.
Proof.
  unfold seeds_get. destruct (0 <=? i) eqn:Hi.
  - destruct (seeds !! Z.to_nat i) as [t|] eqn:Ht.
    + apply lookup_lt_Some in Ht as Hlt. split.
      * intros [= ->]. split; [lia|done].
      * by intros [_ [= ->]].
    + split; [done|]. by intros [_ ?].
  - split; [done|]. lia.
Qed.

Lemma seeds_get_total (seeds : list Vec2) (i : Z) :
  0 <= i < Z.of_nat (length seeds) -> exists s, seeds_get seeds i = Ok s.
Proof.
  intros Hi.
  destruct (lookup_lt_is_Some_2 seeds (Z.to_nat i)) as [s Hs]; [lia|].
  exists s. by apply seeds_get_Ok.
Qed.

Lemma paints_RenderSeedMarkers (seeds : list Vec2) :
  seeds_shape seeds ->
  paints SEED_MARKER_COLOR (RenderSeedMarkers seeds)
    (fun row col => exists i s, seeds_get seeds i = Ok s /\
       FillCircle_covers s SEED_MARKER_RADIUS row col = true).
Proof.
  intros [Hlen _]. unfold RenderSeedMarkers.
  eapply paints_equiv; [|apply paints_for_range with
    (Q := fun i row col => exists s, seeds_get seeds i = Ok s /\
       FillCircle_covers s SEED_MARKER_RADIUS row col = true)].
  - intros row col. split.
    + intros (i & _ & s & Hs & Hc). by exists i, s.
    + intros (i & s & Hs & Hc). exists i. split; [|by exists s].
      apply seeds_get_Ok in Hs. lia.
  - intros i Hi.
    destruct (seeds_get_total seeds i) as [s Hs]; [lia|].
    rewrite Hs. cbn.
    eapply paints_equiv; [|apply paints_FillCircle].
    intros row col. split.
    + intros Hc. by exists s.
    + intros (s' & [= <-] & Hc). done.
Qed.

Lemma image_shape_replicate (c : Color) :
  image_shape (replicate (Z.to_nat HEIGHT) (replicate (Z.to_nat WIDTH) c)).
Proof.
  split; [by rewrite length_replicate|].
  apply Forall_replicate. by rewrite length_replicate.
Qed.

Lemma cell_replicate (c : Color) (row col : Z) :
  in_image row col = true ->
  cell (replicate (Z.to_nat HEIGHT) (replicate (Z.to_nat WIDTH) c)) row col
  = Some c.
Proof.
  intros Hin. unfold cell. rewrite Hin. apply in_image_spec in Hin.
  rewrite lookup_replicate_2 by lia. cbn.
  apply lookup_replicate_2. lia.
Qed.

(** *** The raster primitives *)

(** C9: whatever the origin and the colour, [FillCircle] with radius 0
    leaves the grid as it found it: its outer loop runs over the empty
    range from [origin.x - 0] to [origin.x + 0]. *)
Theorem FillCircle_radius_zero (origin : Vec2) (color : Color)
    (image : Image) :
  FillCircle origin 0 color image = Ok image.
Proof.
  unfold FillCircle. cbv zeta. cbn [Vec2.x].
  apply for_range_empty. rewrite Z.sub_0_r, Z.add_0_r. lia.
Qed.

(** C7: for every origin, radius and colour, [FillCircle] runs to
    completion on a grid of the declared shape: no store leaves the
    bounds [0 <= x < WIDTH], [0 <= y < HEIGHT] (such a store is the
    result [Stop OutOfBounds]), the grid keeps its shape, and the cells
    stored into are cells of the grid.  The same holds for the marker
    discs of [RenderSeedMarkers], wherever the seeds lie. *)
Theorem FillCircle_stays_in_bounds (origin : Vec2) (radius : Z)
    (color : Color) (image : Image) :
  image_shape image ->
  (exists image',
     FillCircle origin radius color image = Ok image' /\
     image_shape image' /\
     forall row col, cell image' row col <> cell image row col ->
       0 <= col < WIDTH /\ 0 <= row < HEIGHT) /\
  (forall seeds, seeds_shape seeds ->
     exists image',
       RenderSeedMarkers seeds image = Ok image' /\ image_shape image').
Proof.
  intros Hsh. split.
  - destruct (paints_FillCircle origin radius color image Hsh)
      as (image' & Hrun & Hsh' & Hcells).
    exists image'. split; [done|]. split; [done|].
    intros row col Hne.
    destruct (Hcells row col) as (Hyes & Hno & _).
    destruct (FillCircle_covers origin radius row col) eqn:Hc.
    + unfold FillCircle_covers in Hc. rewrite !andb_true_iff in Hc.
      destruct Hc as [[[[[Hin _] _] _] _] _].
      apply in_image_spec in Hin. lia.
    + exfalso. apply Hne, Hno. congruence.
  - intros seeds Hseeds.
    destruct (paints_RenderSeedMarkers seeds Hseeds image Hsh)
      as (image' & Hrun & Hsh' & _).
    by exists image'.
Qed.

Lemma FillImage_fills (color : Color) (image : Image) :
  WIDTH = HEIGHT ->
  image_shape image ->
  FillImage color image = FillImage_rowmajor color image /\
  FillImage color image
  = Ok (replicate (Z.to_nat HEIGHT) (replicate (Z.to_nat WIDTH) color)).
Proof.
  intros Hsq Hsh.
  destruct (fill_loops HEIGHT WIDTH (fun y x => (x, y))
    (fun _ _ => color) (fun y x img => image_set img x y color) image)
    as (i1 & Hrun1 & Hsh1 & Hc1); [| |done|done|].
  { intros y x Hy Hx. apply in_image_spec. cbn. lia. }
  { intros y x y' x' _ _ _ _ [= -> ->]. done. }
  destruct (fill_loops HEIGHT WIDTH (fun y x => (y, x))
    (fun _ _ => color) (fun y x img => image_set img y x color) image)
    as (i2 & Hrun2 & Hsh2 & Hc2); [| |done|done|].
  { intros y x Hy Hx. apply in_image_spec. cbn. lia. }
  { intros y x y' x' _ _ _ _ [= -> ->]. done. }
  assert (forall i, image_shape i ->
    (forall row col, in_image row col = true ->
       cell i row col = Some color) ->
    i = replicate (Z.to_nat HEIGHT) (replicate (Z.to_nat WIDTH) color))
    as Hfull.
  { intros i Hi Hc. apply image_ext; [done|apply image_shape_replicate|].
    intros row col Hin. rewrite cell_replicate by done. by apply Hc. }
  assert (i1 = replicate (Z.to_nat HEIGHT) (replicate (Z.to_nat WIDTH) color))
    as ->.
  { apply Hfull; [done|]. intros row col Hin.
    apply in_image_spec in Hin. apply (Hc1 col row); lia. }
  assert (i2 = replicate (Z.to_nat HEIGHT) (replicate (Z.to_nat WIDTH) color))
    as ->.
  { apply Hfull; [done|]. intros row col Hin.
    apply in_image_spec in Hin. apply (Hc2 row col); lia. }
  unfold FillImage, FillImage_rowmajor.
  cbv beta in Hrun1, Hrun2. by rewrite Hrun1, Hrun2.
Qed.

(** C6: when the width equals the height, [FillImage], which stores
    through [image[x][y]], runs to completion and gives the grid the
    row-major fill through [image[y][x]] gives: every cell holds the
    colour. *)
Theorem FillImage_square (color : Color) (image : Image) :
  WIDTH = HEIGHT ->
  image_shape image ->
  FillImage color image = FillImage_rowmajor color image /\
  FillImage color image
  = Ok (replicate (Z.to_nat HEIGHT) (replicate (Z.to_nat WIDTH) color)).
Proof. apply FillImage_fills. Qed.

(** *** The nearest-seed scan *)

Lemma closest_seed_scan_first_min (seeds : list Vec2) (point : Vec2) :
  seeds_shape seeds -> 1 <= SEEDS_COUNT ->
  exists k s,
    closest_seed_scan seeds point 0 = Ok k /\
    seeds_get seeds k = Ok s /\
    forall j t, seeds_get seeds j = Ok t ->
      SquareDistance s point <= SquareDistance t point /\
      (j < k -> SquareDistance s point < SquareDistance t point).
Proof.
  intros [Hlen Hint] Hne. unfold closest_seed_scan.
  destruct (for_range_inv
    (fun i k => 0 <= k < i /\
       exists s, seeds_get seeds k = Ok s /\
         forall j t, 0 <= j < i -> seeds_get seeds j = Ok t ->
           SquareDistance s point <= SquareDistance t point /\
           (j < k -> SquareDistance s point < SquareDistance t point))
    (fun i closestSeedIdx =>
       si ← seeds_get seeds i;
       let currDist := SquareDistance si point in
       sc ← seeds_get seeds closestSeedIdx;
       let closestDist := SquareDistance sc point in
       if currDist <? closestDist then Ok (wrap_int i)
       else Ok closestSeedIdx)
    1 SEEDS_COUNT 0) as (k & Hrun & Hk & s & Hs & Hmin); [done| | |].
  - split; [lia|].
    destruct (seeds_get_total seeds 0) as [s0 Hs0]; [lia|].
    exists s0. split; [done|]. intros j t Hj Ht.
    replace j with 0 in Ht by lia.
    assert (t = s0) as -> by congruence. split; lia.
  - intros i k Hi (Hk & s & Hs & Hmin).
    destruct (seeds_get_total seeds i) as [si Hsi]; [lia|].
    rewrite Hsi, Hs. cbn.
    destruct (SquareDistance si point <? SquareDistance s point) eqn:Hcmp.
    + apply Z.ltb_lt in Hcmp.
      rewrite wrap_int_id by (unfold is_int; lia).
      exists i. split; [done|]. split; [lia|].
      exists si. split; [done|]. intros j t Hj Ht.
      destruct (decide (j = i)) as [->|Hji].
      * assert (t = si) as -> by congruence. lia.
      * destruct (Hmin j t) as [Hle _]; [lia|done|]. lia.
    + apply Z.ltb_ge in Hcmp.
      exists k. split; [done|]. split; [lia|].
      exists s. split; [done|]. intros j t Hj Ht.
      destruct (decide (j = i)) as [->|Hji].
      * assert (t = si) as -> by congruence. lia.
      * apply Hmin; [lia|done].
  - exists k, s. split; [done|]. split; [done|].
    intros j t Ht. apply Hmin; [|done].
    apply seeds_get_Ok in Ht. lia.
Qed.

Lemma seeds_get_Forall (P : Vec2 -> Prop) (seeds : list Vec2) (i : Z)
    (s : Vec2) :
  Forall P seeds -> seeds_get seeds i = Ok s -> P s.
Proof.
  intros HP Hs. apply seeds_get_Ok in Hs as [_ Hs].
  by eapply (Forall_lookup_1 _ _ _ _ HP).
Qed.

Lemma voronoi_pixel_Ok (seeds : list Vec2) (x y : Z) :
  seeds_shape seeds -> 1 <= SEEDS_COUNT -> Forall packable seeds ->
  exists k s,
    closest_seed_scan seeds (Vec2.mk x y) 0 = Ok k /\
    seeds_get seeds k = Ok s /\
    voronoi_pixel seeds x y = Ok (pack s).
Proof.
  intros Hsh Hne Hpack.
  destruct (closest_seed_scan_first_min seeds (Vec2.mk x y) Hsh Hne)
    as (k & s & Hk & Hs & _).
  exists k, s. split; [done|]. split; [done|].
  unfold voronoi_pixel. rewrite Hk. cbn. rewrite Hs. cbn.
  destruct s as [sx sy]. cbn [Vec2.x Vec2.y].
  apply SeedToColor_pack. by apply (seeds_get_Forall _ _ _ _ Hpack Hs).
Qed.

Lemma RenderVoronoi_cells (seeds : list Vec2) (image : Image) :
  seeds_shape seeds -> 1 <= SEEDS_COUNT -> Forall packable seeds ->
  image_shape image ->
  exists image',
    RenderVoronoi seeds image = Ok image' /\
    image_shape image' /\
    forall x y, 0 <= x < WIDTH -> 0 <= y < HEIGHT ->
      cell image' y x = Some (result_or 0 (voronoi_pixel seeds x y)).
Proof.
  intros Hsh Hne Hpack Himg.
  destruct (fill_loops HEIGHT WIDTH (fun y x => (y, x))
    (fun y x => result_or 0 (voronoi_pixel seeds x y))
    (fun y x img =>
       let closestSeedIdx := 0 in
       let point := Vec2.mk x y in
       closestSeedIdx ← closest_seed_scan seeds point closestSeedIdx;
       s ← seeds_get seeds closestSeedIdx;
       let seedPos := Vec2.mk (Vec2.x s) (Vec2.y s) in
       c ← SeedToColor seedPos;
       image_set img y x c) image)
    as (image' & Hrun & Himg' & Hcells); [| | |done|].
  - intros y x Hy Hx. apply in_image_spec. cbn. lia.
  - intros y x y' x' _ _ _ _ [= -> ->]. done.
  - intros y x img Hy Hx. cbn [fst snd]. cbv zeta.
    destruct (voronoi_pixel_Ok seeds x y Hsh Hne Hpack)
      as (k & s & Hk & Hs & Hpix).
    rewrite Hpix. unfold voronoi_pixel in Hpix.
    rewrite Hk in *. cbn in *. rewrite Hs in *. cbn in *.
    rewrite Hpix. done.
  - exists image'. split; [exact Hrun|]. split; [done|].
    intros x y Hx Hy. by apply (Hcells y x).
Qed.

(** *** Classification *)

(** C1: with at least one seed, seeds inside a raster of at most 32768
    by 32768 pixels (so that no distance leaves the range of [int]),
    [RenderVoronoi] gives every pixel [p] the colour of a seed [s] of the
    array such that no seed is strictly nearer to [p] in squared
    Euclidean distance, and every seed before [s] in the array is
    strictly farther: the first of the nearest seeds wins. *)
Theorem RenderVoronoi_nearest_first (seeds : list Vec2) (image : Image)
    (x y : Z) :
  seeds_shape seeds -> 1 <= SEEDS_COUNT ->
  WIDTH <= 2 ^ 15 -> HEIGHT <= 2 ^ 15 ->
  Forall in_raster seeds ->
  image_shape image ->
  0 <= x < WIDTH -> 0 <= y < HEIGHT ->
  exists image' k s,
    RenderVoronoi seeds image = Ok image' /\
    closest_seed_scan seeds (Vec2.mk x y) 0 = Ok k /\
    seeds_get seeds k = Ok s /\
    SeedToColor s = Ok (pack s) /\
    cell image' y x = Some (pack s) /\
    forall j t, seeds_get seeds j = Ok t ->
      sq_dist s (Vec2.mk x y) <= sq_dist t (Vec2.mk x y) /\
      (j < k -> sq_dist s (Vec2.mk x y) < sq_dist t (Vec2.mk x y)).
Proof.
  intros Hsh Hne HW HH Hin Himg Hx Hy.
  change (2 ^ 15) with 32768 in HW, HH.
  assert (Forall packable seeds) as Hpack.
  { eapply Forall_impl; [exact Hin|]. intros p [? ?]. unfold packable. lia. }
  destruct (RenderVoronoi_cells seeds image Hsh Hne Hpack Himg)
    as (image' & Hrun & _ & Hcells).
  destruct (closest_seed_scan_first_min seeds (Vec2.mk x y) Hsh Hne)
    as (k & s & Hk & Hs & Hmin).
  destruct (voronoi_pixel_Ok seeds x y Hsh Hne Hpack)
    as (k' & s' & Hk' & Hs' & Hpix).
  assert (k' = k) as -> by congruence.
  assert (s' = s) as -> by congruence.
  exists image', k, s. split; [done|]. split; [done|]. split; [done|].
  split; [apply SeedToColor_pack; by apply (seeds_get_Forall _ _ _ _ Hpack Hs)|].
  split; [by rewrite Hcells, Hpix|].
  assert (forall i t, seeds_get seeds i = Ok t ->
    SquareDistance t (Vec2.mk x y) = sq_dist t (Vec2.mk x y)) as Hexact.
  { intros i t Ht. pose proof (seeds_get_Forall _ _ _ _ Hin Ht) as [? ?].
    apply SquareDistance_exact; cbn [Vec2.x Vec2.y];
      change (2 ^ 15) with 32768; lia. }
  intros j t Ht. rewrite <- (Hexact k s Hs), <- (Hexact j t Ht).
  by apply Hmin.
Qed.

(** C4: when the coordinates of every seed fit in 16 bits, the colour
    [RenderVoronoi] stores at a pixel is the [x] of the winning seed
    shifted left by 16 bits XOR its [y]: it is what [SeedToColor] returns
    for that seed, whatever the pixel.  The seed (2, 2) gives 0x20002. *)
Theorem region_color_packs_seed (seeds : list Vec2) (image : Image)
    (x y : Z) :
  seeds_shape seeds -> 1 <= SEEDS_COUNT ->
  Forall packable seeds ->
  image_shape image ->
  0 <= x < WIDTH -> 0 <= y < HEIGHT ->
  (forall p, packable p ->
     SeedToColor p = Ok (Z.lxor (Z.shiftl (Vec2.x p) 16) (Vec2.y p))) /\
  SeedToColor (Vec2.mk 2 2) = Ok 0x20002 /\
  exists image' k s,
    RenderVoronoi seeds image = Ok image' /\
    closest_seed_scan seeds (Vec2.mk x y) 0 = Ok k /\
    seeds_get seeds k = Ok s /\
    cell image' y x = Some (Z.lxor (Z.shiftl (Vec2.x s) 16) (Vec2.y s)).
Proof.
  intros Hsh Hne Hpack Himg Hx Hy.
  split; [intros p Hp; by apply SeedToColor_pack|].
  split; [reflexivity|].
  destruct (RenderVoronoi_cells seeds image Hsh Hne Hpack Himg)
    as (image' & Hrun & _ & Hcells).
  destruct (voronoi_pixel_Ok seeds x y Hsh Hne Hpack)
    as (k & s & Hk & Hs & Hpix).
  exists image', k, s. split; [done|]. split; [done|]. split; [done|].
  by rewrite Hcells, Hpix.
Qed.

Lemma pack_not_background (p : Vec2) :
  packable p -> Vec2.x p < 0xFF20 -> pack p <> COLOR_BACKGROUND.
Proof.
  intros Hp Hx Heq.
  pose proof (pack_high_bits p Hp) as Hhigh.
  rewrite Heq in Hhigh.
  change (Z.shiftr COLOR_BACKGROUND 16) with 0xFF20 in Hhigh. lia.
Qed.

Lemma pack_sum (p : Vec2) :
  packable p -> pack p = Vec2.x p * 65536 + Vec2.y p.
Proof.
  intros [Hx Hy]. unfold pack. rewrite <- Z.add_nocarry_lxor.
  - by rewrite Z.shiftl_mul_pow2 by lia.
  - apply Z.bits_inj'. intros n Hn.
    rewrite Z.land_spec, Z.bits_0.
    destruct (Z.lt_ge_cases n 16) as [Hlt|Hge].
    + by rewrite Z.shiftl_spec_low.
    + rewrite (testbit_above (Vec2.y p) n 16); [apply andb_false_r| |lia].
      change (2 ^ 16) with 65536. lia.
Qed.

Lemma pack_bytes_not_background (p : Vec2) :
  packable p -> Vec2.y p < 0x1717 ->
  pixel_bytes (pack p) <> pixel_bytes COLOR_BACKGROUND.
Proof.
  intros Hp Hy. rewrite !pixel_bytes_spec, (pack_sum p Hp).
  destruct Hp as [Hx0 Hy0]. unfold COLOR_BACKGROUND.
  intros [= H0 H1 _]. revert H0 H1.
  generalize (Vec2.x p) (Vec2.y p) Hx0 Hy0 Hy. clear.
  intros a b Ha Hb Hlt. Z.div_mod_to_equations. lia.
Qed.

(** C10: [RenderVoronoi] stores a seed's colour into every pixel,
    whatever the grid held before: started on the grid [FillImage] has
    just filled with the background colour or on any other grid of the
    declared shape, it returns one and the same grid, each of whose cells
    holds the packed coordinates of a seed.  In a square raster at most
    0xFF20 wide with its seeds inside, no cell holds [COLOR_BACKGROUND]
    once [RenderVoronoi] has run, and none does after the markers are
    drawn; in a raster at most 0x1717 high, no pixel of the final grid
    is written to the file as the three bytes of [COLOR_BACKGROUND]. *)
Theorem RenderVoronoi_overwrites_background (seeds : list Vec2)
    (image0 : Image) :
  WIDTH = HEIGHT -> WIDTH <= 0xFF20 ->
  seeds_shape seeds -> 1 <= SEEDS_COUNT ->
  Forall in_raster seeds ->
  image_shape image0 ->
  exists filled rendered final,
    FillImage COLOR_BACKGROUND image0 = Ok filled /\
    RenderVoronoi seeds filled = Ok rendered /\
    RenderSeedMarkers seeds rendered = Ok final /\
    (forall other, image_shape other ->
       RenderVoronoi seeds other = Ok rendered) /\
    (forall x y, 0 <= x < WIDTH -> 0 <= y < HEIGHT ->
       (exists s, s ∈ seeds /\ cell rendered y x = Some (pack s)) /\
       cell rendered y x <> Some COLOR_BACKGROUND /\
       cell final y x <> Some COLOR_BACKGROUND /\
       (HEIGHT <= 0x1717 -> forall c, cell final y x = Some c ->
          pixel_bytes c <> pixel_bytes COLOR_BACKGROUND)).
Proof.
  intros Hsq HW Hsh Hne Hin Himg0.
  assert (Forall packable seeds) as Hpack.
  { eapply Forall_impl; [exact Hin|]. intros p [? ?]. unfold packable. lia. }
  destruct (FillImage_fills COLOR_BACKGROUND image0 Hsq Himg0)
    as [_ Hfill].
  pose proof (image_shape_replicate COLOR_BACKGROUND) as Hfsh.
  destruct (RenderVoronoi_cells seeds _ Hsh Hne Hpack Hfsh)
    as (rendered & Hrun & Hrsh & Hcells).
  destruct (paints_RenderSeedMarkers seeds Hsh rendered Hrsh)
    as (final & Hmark & _ & Hfinal).
  eexists _, rendered, final. split; [exact Hfill|].
  split; [done|]. split; [done|]. split.
  - intros other Hother.
    destruct (RenderVoronoi_cells seeds other Hsh Hne Hpack Hother)
      as (rendered' & Hrun' & Hrsh' & Hcells').
    rewrite Hrun'. f_equal. apply image_ext; [done|done|].
    intros row col Hrc. apply in_image_spec in Hrc.
    rewrite Hcells, Hcells' by lia. done.
  - intros x y Hx Hy.
    destruct (voronoi_pixel_Ok seeds x y Hsh Hne Hpack)
      as (k & s & Hk & Hs & Hpix).
    assert (cell rendered y x = Some (pack s)) as Hcell
      by (by rewrite Hcells, Hpix).
    assert (pack s <> COLOR_BACKGROUND) as Hnb.
    { apply pack_not_background;
        [by apply (seeds_get_Forall _ _ _ _ Hpack Hs)|].
      pose proof (seeds_get_Forall _ _ _ _ Hin Hs) as [? ?]. lia. }
    split; [|split; [|split]].
    + exists s. split; [|done].
      apply seeds_get_Ok in Hs as [_ Hs].
      by eapply list_elem_of_lookup_2.
    + rewrite Hcell. congruence.
    + destruct (Hfinal y x) as (_ & _ & [-> | ->]).
      * discriminate.
      * rewrite Hcell. congruence.
    + intros HH c Hc.
      destruct (Hfinal y x) as (_ & _ & [Hblack | Hsame]).
      * rewrite Hblack in Hc. injection Hc as <-.
        vm_compute. discriminate.
      * rewrite Hsame, Hcell in Hc. injection Hc as <-.
        apply pack_bytes_not_background;
          [by apply (seeds_get_Forall _ _ _ _ Hpack Hs)|].
        pose proof (seeds_get_Forall _ _ _ _ Hin Hs) as [? ?]. lia.
Qed.

(** *** Seed generation *)

Lemma int_rem_rand (r m : Z) :
  0 <= r < 2 ^ 31 -> 0 < m ->
  exists v, int_rem r m = Ok v /\ 0 <= v < m.
Proof.
  intros Hr Hm. unfold int_rem.
  replace (m =? 0) with false by lia.
  pose proof (Z.rem_bound_pos r m ltac:(lia) Hm) as Hb.
  pose proof (Z.rem_le r m ltac:(lia) Hm) as Hle.
  exists (Z.rem r m). split; [|done].
  f_equal. apply wrap_int_id. unfold is_int.
  change (2 ^ 31) with 2147483648 in *. lia.
Qed.

Lemma GenerateRandomSeeds_spec (RandState : Type)
    (rand : RandState -> Z * RandState) (seeds0 : list Vec2)
    (rs : RandState) :
  (forall r, 0 <= (rand r).1 < 2 ^ 31) ->
  0 < WIDTH -> 0 < HEIGHT ->
  seeds_shape seeds0 ->
  exists seeds rs',
    GenerateRandomSeeds RandState rand seeds0 rs = Ok (seeds, rs') /\
    seeds_shape seeds /\ Forall in_raster seeds.
Proof.
  intros Hrand HW HH [Hlen Hint]. unfold GenerateRandomSeeds.
  destruct (for_range_inv_max
    (fun i (st : list Vec2 * RandState) =>
       length st.1 = length seeds0 /\
       forall j s, st.1 !! j = Some s -> Z.of_nat j < i -> in_raster s)
    (fun i '(seeds, rs) =>
       let '(r, rs) := rand rs in
       v ← int_rem r WIDTH;
       seeds ← seeds_set_x seeds i v;
       let '(r, rs) := rand rs in
       v ← int_rem r HEIGHT;
       seeds ← seeds_set_y seeds i v;
       Ok (seeds, rs))
    0 SEEDS_COUNT (seeds0, rs)) as ([seeds rs'] & Hrun & Hl & Hall).
  - split; [done|]. intros j s _ Hj. lia.
  - intros i [sd r0] Hi [Hl Hall]. cbn [fst] in Hl, Hall.
    pose proof (Hrand r0) as Hr1. destruct (rand r0) as [r1 rs1].
    cbn [fst] in Hr1.
    destruct (int_rem_rand r1 WIDTH Hr1 HW) as (vx & -> & Hvx). cbn.
    unfold seeds_set_x.
    replace ((0 <=? i) && (i <? Z.of_nat (length sd))) with true
      by (symmetry; apply andb_true_iff; lia).
    cbn.
    pose proof (Hrand rs1) as Hr2. destruct (rand rs1) as [r2 rs2].
    cbn [fst] in Hr2.
    destruct (int_rem_rand r2 HEIGHT Hr2 HH) as (vy & -> & Hvy). cbn.
    unfold seeds_set_y. rewrite length_alter.
    replace ((0 <=? i) && (i <? Z.of_nat (length sd))) with true
      by (symmetry; apply andb_true_iff; lia).
    cbn. eexists. split; [reflexivity|]. cbn [fst].
    split; [by rewrite !length_alter|].
    intros j s Hj Hlt.
    destruct (decide (j = Z.to_nat i)) as [->|Hji].
    + rewrite !list_lookup_alter_eq in Hj.
      destruct (sd !! Z.to_nat i) as [old|]; [|done].
      cbn in Hj. injection Hj as <-. split; cbn; lia.
    + rewrite !list_lookup_alter_ne in Hj by done.
      apply (Hall j s Hj). lia.
  - cbn [fst] in Hl, Hall. exists seeds, rs'. split; [done|].
    split; [split; [lia|done]|].
    apply Forall_lookup_2. intros j s Hj.
    apply (Hall j s Hj). apply lookup_lt_Some in Hj. lia.
Qed.

(** C8: with [rand] returning values of [[0, RAND_MAX]] and a raster of
    positive width and height, [GenerateRandomSeeds] runs to completion
    and every seed it leaves in the array lies in
    [[0, WIDTH) x [0, HEIGHT)].  When the raster is at most 65536 wide
    and high, each of these seeds passes the four assertions of
    [SeedToColor], and [RenderVoronoi] run on them reaches no failing
    assertion: it runs to completion. *)
Theorem GenerateRandomSeeds_in_raster (RandState : Type)
    (rand : RandState -> Z * RandState) (seeds0 : list Vec2)
    (rs : RandState) :
  (forall r, 0 <= (rand r).1 < 2 ^ 31) ->
  0 < WIDTH -> 0 < HEIGHT ->
  seeds_shape seeds0 ->
  exists seeds rs',
    GenerateRandomSeeds RandState rand seeds0 rs = Ok (seeds, rs') /\
    seeds_shape seeds /\
    Forall in_raster seeds /\
    (WIDTH <= 65536 -> HEIGHT <= 65536 ->
       Forall (fun s => SeedToColor s = Ok (pack s)) seeds /\
       forall image, 1 <= SEEDS_COUNT -> image_shape image ->
         exists image', RenderVoronoi seeds image = Ok image').
Proof.
  intros Hrand HW HH Hsh.
  destruct (GenerateRandomSeeds_spec RandState rand seeds0 rs Hrand HW HH Hsh)
    as (seeds & rs' & Hrun & Hsh' & Hin).
  exists seeds, rs'. split; [done|]. split; [done|]. split; [done|].
  intros HW' HH'.
  assert (Forall packable seeds) as Hpack.
  { eapply Forall_impl; [exact Hin|]. intros p [? ?]. unfold packable. lia. }
  split.
  - eapply Forall_impl; [exact Hpack|]. intros p Hp.
    by apply SeedToColor_pack.
  - intros image Hne Himg.
    destruct (RenderVoronoi_cells seeds image Hsh' Hne Hpack Himg)
      as (image' & Hrun' & _).
    by exists image'.
Qed.

(** *** Serialisation *)

Lemma io_for_steps_inv {S : Type} (Inv : Z -> S -> list Event -> Prop)
    (body : Z -> S -> IO S) (n : nat) (i : Z) (s : S) (tr : list Event) :
  Inv i s tr ->
  (forall j t tr1, i <= j < i + Z.of_nat n -> Inv j t tr1 ->
     exists t' tr2, body j t tr1 = (tr2, Ok t') /\ Inv (j + 1) t' tr2) ->
  exists s' tr',
    for_steps n i body s tr = (tr', Ok s') /\ Inv (i + Z.of_nat n) s' tr'.
Proof.
  revert i s tr. induction n as [|n IH]; intros i s tr Hi Hstep.
  - exists s, tr. split; [reflexivity|]. by rewrite Z.add_0_r.
  - destruct (Hstep i s tr) as (t & tr1 & Ht & Hinv); [lia|done|].
    destruct (IH (i + 1) t tr1) as (s' & tr' & Hs' & Hinv'); [done| |].
    + intros j u tr2 Hj Hu. apply Hstep; [lia|done].
    + exists s', tr'. split.
      * cbn [for_steps]. unfold mbind, IO_bind. rewrite Ht. exact Hs'.
      * by replace (i + Z.of_nat (Datatypes.S n)) with (i + 1 + Z.of_nat n)
          by lia.
Qed.

Lemma io_for_range_inv {S : Type} (Inv : Z -> S -> list Event -> Prop)
    (body : Z -> S -> IO S) (lo hi : Z) (s : S) (tr : list Event) :
  Inv lo s tr ->
  (forall j t tr1, lo <= j < hi -> Inv j t tr1 ->
     exists t' tr2, body j t tr1 = (tr2, Ok t') /\ Inv (j + 1) t' tr2) ->
  exists s' tr',
    for_range lo hi body s tr = (tr', Ok s') /\ Inv (Z.max lo hi) s' tr'.
Proof.
  intros Hlo Hstep. unfold for_range.
  destruct (io_for_steps_inv Inv body (Z.to_nat (hi - lo)) lo s tr)
    as (s' & tr' & Hs' & Hinv).
  - done.
  - intros j t tr1 Hj. apply Hstep. lia.
  - exists s', tr'. split; [done|].
    replace (lo + Z.of_nat (Z.to_nat (hi - lo))) with (Z.max lo hi) in Hinv
      by lia.
    exact Hinv.
Qed.

Lemma bytes_reassemble (pixel : Z) :
  pixel mod 256 + 256 * ((pixel / 256) mod 256)
    + 65536 * ((pixel / 65536) mod 256)
  = pixel mod 2 ^ 24.
Proof.
  change (2 ^ 24) with 16777216. Z.div_mod_to_equations. lia.
Qed.

Lemma pixel_loops_trace (os : OS) (image : Image) (tr : list Event) :
  (forall n, ferror_after os n = false) ->
  image_shape image ->
  for_range 0 HEIGHT (fun y (_ : unit) =>
    for_range 0 WIDTH (fun x (_ : unit) =>
      pixel ← lift (image_get image y x);
      let bytes := pixel_bytes pixel in
      _ ← fwrite (Some OutFile) bytes;
      e ← ferror os (Some OutFile);
      lift (assert (negb e))) tt) tt tr
  = (tr ++ (Fwrite OutFile ∘ pixel_bytes <$> concat image), Ok tt).
Proof.
  intros Hferr [Hlen Hrows].
  destruct (io_for_range_inv
    (fun y (_ : unit) tr' =>
       tr' = tr ++ (Fwrite OutFile ∘ pixel_bytes
                      <$> concat (take (Z.to_nat y) image)))
    (fun y (_ : unit) =>
      for_range 0 WIDTH (fun x (_ : unit) =>
        pixel ← lift (image_get image y x);
        let bytes := pixel_bytes pixel in
        _ ← fwrite (Some OutFile) bytes;
        e ← ferror os (Some OutFile);
        lift (assert (negb e))) tt)
    0 HEIGHT tt tr) as ([] & tr' & Hrun & ->).
  - cbn. by rewrite app_nil_r.
  - intros y [] tr1 Hy ->.
    destruct (lookup_lt_is_Some_2 image (Z.to_nat y)) as [r Hr]; [lia|].
    assert (length r = Z.to_nat WIDTH) as Hlr
      by (eapply (Forall_lookup_1 _ _ _ _ Hrows); eassumption).
    destruct (io_for_range_inv
      (fun x (_ : unit) tr' =>
         tr' = (tr ++ (Fwrite OutFile ∘ pixel_bytes
                         <$> concat (take (Z.to_nat y) image)))
               ++ (Fwrite OutFile ∘ pixel_bytes <$> take (Z.to_nat x) r))
      (fun x (_ : unit) =>
        pixel ← lift (image_get image y x);
        let bytes := pixel_bytes pixel in
        _ ← fwrite (Some OutFile) bytes;
        e ← ferror os (Some OutFile);
        lift (assert (negb e)))
      0 WIDTH tt
      (tr ++ (Fwrite OutFile ∘ pixel_bytes
                <$> concat (take (Z.to_nat y) image))))
      as ([] & tr2 & Hrun2 & ->).
    + cbn. by rewrite app_nil_r.
    + intros x [] tr3 Hx ->.
      destruct (lookup_lt_is_Some_2 r (Z.to_nat x)) as [c Hc]; [lia|].
      assert (image_get image y x = Ok c) as Hget.
      { unfold image_get, cell.
        replace (in_image y x) with true
          by (symmetry; apply in_image_spec; lia).
        rewrite Hr. cbn. by rewrite Hc. }
      exists tt. eexists. split.
      * unfold mbind, IO_bind, lift. rewrite Hget. cbn.
        rewrite Hferr. cbn. reflexivity.
      * replace (Z.to_nat (x + 1)) with (Datatypes.S (Z.to_nat x)) by lia.
        rewrite (take_S_r _ _ _ Hc), fmap_app, <- app_assoc. reflexivity.
    + exists tt. eexists. split; [exact Hrun2|].
      replace (Z.to_nat (y + 1)) with (Datatypes.S (Z.to_nat y)) by lia.
      rewrite (take_S_r _ _ _ Hr), concat_app, fmap_app. cbn.
      rewrite app_nil_r, <- app_assoc.
      rewrite (take_ge r) by lia. done.
  - rewrite Hrun. rewrite take_ge by lia. done.
Qed.

Lemma SaveImageAsPPM_trace (os : OS) (filePath : string) (image : Image) :
  fopen_succeeds os = true ->
  (forall n, ferror_after os n = false) ->
  fclose_result os = 0 ->
  image_shape image ->
  SaveImageAsPPM os filePath image [] = (ppm_trace filePath image, Ok tt).
Proof.
  intros Hopen Hferr Hclose Hsh.
  unfold SaveImageAsPPM, fopen. rewrite Hopen.
  unfold mbind at 1 2 3 4 5. unfold IO_bind at 1 2 3 4 5. cbn [emit app].
  unfold mret at 1. unfold IO_ret at 1.
  unfold mbind at 1. unfold IO_bind at 1. cbn [fprintf emit app].
  unfold mbind at 1. unfold IO_bind at 1. cbn [fprintf emit app].
  unfold mbind at 1. unfold IO_bind at 1.
  unfold mret at 1. unfold IO_ret at 1.
  unfold mbind at 1. unfold IO_bind at 1.
  rewrite (pixel_loops_trace os image _ Hferr Hsh).
  unfold mbind at 1. unfold IO_bind at 1.
  unfold fclose. unfold mbind at 1. unfold IO_bind at 1. cbn [emit].
  unfold mret at 1. unfold IO_ret at 1.
  rewrite Hclose. cbn [Z.eqb assert lift].
  unfold ppm_trace. by rewrite <- !app_assoc.
Qed.

(** C5: when the file opens and every write succeeds, the run of
    [SaveImageAsPPM] leaves the two header lines followed by one
    [fwrite] of three bytes per pixel, row by row; the three bytes of a
    pixel are bits 7..0, bits 15..8 and bits 23..16 of its colour, in
    this order, so that put together again they give the low 24 bits of
    the colour: the top byte is not written. *)
Theorem SaveImageAsPPM_low_three_bytes (os : OS) (filePath : string)
    (image : Image) :
  fopen_succeeds os = true ->
  (forall n, ferror_after os n = false) ->
  fclose_result os = 0 ->
  image_shape image ->
  SaveImageAsPPM os filePath image [] = (ppm_trace filePath image, Ok tt) /\
  forall pixel,
    pixel_bytes pixel =
      [ Z.land pixel 0xFF;
        Z.land (Z.shiftr pixel 8) 0xFF;
        Z.land (Z.shiftr pixel 16) 0xFF ] /\
    Z.land pixel 0xFF
      + Z.shiftl (Z.land (Z.shiftr pixel 8) 0xFF) 8
      + Z.shiftl (Z.land (Z.shiftr pixel 16) 0xFF) 16
    = Z.land pixel 0xFFFFFF.
Proof.
  intros Hopen Hferr Hclose Hsh.
  split; [by apply SaveImageAsPPM_trace|].
  intros pixel.
  change 0xFF with (Z.ones 8). change 0xFFFFFF with (Z.ones 24).
  rewrite !Z.land_ones, !Z.shiftr_div_pow2, !Z.shiftl_mul_pow2 by lia.
  change (2 ^ 8) with 256. change (2 ^ 16) with 65536.
  split; [apply pixel_bytes_spec|].
  rewrite <- bytes_reassemble. lia.
Qed.

(** C3, as the code behaves: when [fopen] returns [NULL], the
    [fprintf] of the first header line is a call on the [NULL] stream.
    The run stops there, before the test [file == NULL]: nothing is
    written to [stderr] and [exit(1)] is not reached. *)
Theorem SaveImageAsPPM_writes_before_check (now : Z) (msg : string)
    (fe : nat -> bool) (fc : Z) (filePath : string) (image : Image) :
  SaveImageAsPPM (mkOS now false msg fe fc) filePath image []
  = ([Fopen filePath "wb"], Stop NullStream).
Proof. reflexivity. Qed.

(** *** The whole run *)

(** X21: in a square raster at most 0x1717 wide, with at least one seed,
    a [rand] that returns values of [[0, RAND_MAX]] and an operating
    system on which the file opens and every write and the close
    succeed, [main] returns 0 and leaves the file of a grid of the
    declared shape no pixel of which is written as the three bytes of
    the background colour. *)
Lemma main_renders (RandState : Type) (srand : Z -> RandState)
    (rand : RandState -> Z * RandState) (os : OS) :
  (forall r, 0 <= (rand r).1 < 2 ^ 31) ->
  WIDTH = HEIGHT -> 0 < WIDTH <= 0x1717 ->
  1 <= SEEDS_COUNT < 2 ^ 31 ->
  fopen_succeeds os = true ->
  (forall n, ferror_after os n = false) ->
  fclose_result os = 0 ->
  exists final,
    main RandState srand rand os
    = (ppm_trace OUTPUT_FILE_PATH final, Ok 0) /\
    image_shape final /\
    forall x y c, cell final y x = Some c ->
      pixel_bytes c <> pixel_bytes COLOR_BACKGROUND.
Proof.
  intros Hrand Hsq HW HN Hopen Hferr Hclose.
  pose proof (image_shape_replicate 0) as Hsh0.
  destruct (FillImage_fills COLOR_BACKGROUND _ Hsq Hsh0) as [_ Hfill].
  pose proof (image_shape_replicate COLOR_BACKGROUND) as Hfilled.
  assert (seeds_shape (replicate (Z.to_nat SEEDS_COUNT) (Vec2.mk 0 0)))
    as Hseeds0 by (split; [rewrite length_replicate; lia|lia]).
  destruct (GenerateRandomSeeds_spec RandState rand _
              (srand (time_now os)) Hrand ltac:(lia) ltac:(lia) Hseeds0)
    as (seeds & rs' & Hgen & Hseeds & Hin).
  assert (Forall packable seeds) as Hpack.
  { eapply Forall_impl; [exact Hin|]. intros p [? ?].
    unfold packable. lia. }
  destruct (RenderVoronoi_cells seeds _ Hseeds ltac:(lia) Hpack Hfilled)
    as (rendered & Hrender & Hrsh & Hcells).
  destruct (paints_RenderSeedMarkers seeds Hseeds rendered Hrsh)
    as (final & Hmark & Hfsh & Hfinal).
  exists final. split; [|split; [done|]].
  - unfold main. cbv zeta.
    unfold mbind at 1. unfold IO_bind at 1. unfold lift at 1.
    rewrite Hfill.
    unfold mbind at 1. unfold IO_bind at 1. unfold lift at 1.
    rewrite Hgen.
    unfold mbind at 1. unfold IO_bind at 1. unfold lift at 1.
    rewrite Hrender.
    unfold mbind at 1. unfold IO_bind at 1. unfold lift at 1.
    rewrite Hmark.
    unfold mbind at 1. unfold IO_bind at 1.
    rewrite (SaveImageAsPPM_trace os OUTPUT_FILE_PATH final
               Hopen Hferr Hclose Hfsh).
    reflexivity.
  - intros x y c Hc.
    assert (in_image y x = true) as Hyx.
    { unfold cell in Hc. by destruct (in_image y x). }
    apply in_image_spec in Hyx.
    destruct (Hfinal y x) as (_ & _ & [Hblack | Hsame]).
    + rewrite Hblack in Hc. injection Hc as <-. vm_compute. discriminate.
    + destruct (voronoi_pixel_Ok seeds x y Hseeds ltac:(lia) Hpack)
        as (k & s & _ & Hs & Hpix).
      rewrite Hsame, Hcells, Hpix in Hc by lia. injection Hc as <-.
      apply pack_bytes_not_background;
        [by apply (seeds_get_Forall _ _ _ _ Hpack Hs)|].
      pose proof (seeds_get_Forall _ _ _ _ Hin Hs) as [? ?]. lia.
Qed.

(** ** Further properties of the routines *)

(** *** Distances *)

Lemma wrap_int_congr (a b : Z) :
  a mod 2 ^ 32 = b mod 2 ^ 32 -> wrap_int a = wrap_int b.
Proof.
  unfold wrap_int.
  change (2 ^ 32) with 4294967296. change (2 ^ 31) with 2147483648.
  intros H. f_equal. revert H. Z.div_mod_to_equations. lia.
Qed.

Lemma wrap_int_range (z : Z) : is_int (wrap_int z).
Proof.
  unfold is_int, wrap_int.
  change (2 ^ 32) with 4294967296. change (2 ^ 31) with 2147483648.
  Z.div_mod_to_equations. lia.
Qed.

Lemma wrap_int_square (u : Z) :
  wrap_int (wrap_int u * wrap_int u) = wrap_int (u * u).
Proof.
  apply wrap_int_congr.
  rewrite Z.mul_mod, wrap_int_mod, <- Z.mul_mod; [done| |].
  all: change (2 ^ 32) with 4294967296; lia.
Qed.

(** X1: [SquareDistance] does not depend on the order of its two
    points, for all [int] coordinates, wrapped or not: [RenderVoronoi]
    passes the seed first and [FillCircle] the centre first. *)
Theorem SquareDistance_sym (a b : Vec2) :
  SquareDistance a b = SquareDistance b a.
Proof.
  unfold SquareDistance. cbv zeta. rewrite !wrap_int_square.
  do 3 f_equal; ring.
Qed.

(** X2: for two points whose coordinates differ by less than 32768, as
    any two points of the raster of [main.c] do, [SquareDistance]
    returns the squared Euclidean distance, which is not negative and
    is 0 exactly when the two points are the same. *)
Theorem SquareDistance_zero_iff_same (a b : Vec2) :
  - 2 ^ 15 < Vec2.x a - Vec2.x b < 2 ^ 15 ->
  - 2 ^ 15 < Vec2.y a - Vec2.y b < 2 ^ 15 ->
  SquareDistance a b = sq_dist a b /\
  0 <= SquareDistance a b /\
  (SquareDistance a b = 0 <-> a = b).
Proof.
  intros Hx Hy. rewrite (SquareDistance_exact a b Hx Hy). unfold sq_dist.
  clear Hx Hy.
  pose proof (Z.square_nonneg (Vec2.x a - Vec2.x b)) as Hu.
  pose proof (Z.square_nonneg (Vec2.y a - Vec2.y b)) as Hv.
  split; [done|]. split; [lia|].
  destruct a as [ax ay], b as [bx by_]. cbn [Vec2.x Vec2.y] in *. split.
  - intros H. assert (ax = bx) by nia. assert (ay = by_) by nia.
    by subst.
  - intros [= -> ->]. lia.
Qed.

Lemma int_abs_id (z : Z) : - 2 ^ 31 < z < 2 ^ 31 -> int_abs z = Z.abs z.
Proof.
  intros Hz. unfold int_abs. apply wrap_int_id. unfold is_int.
  change (2 ^ 31) with 2147483648 in *. lia.
Qed.

Lemma ManhattanDistance_exact (a b : Vec2) :
  small a -> small b ->
  ManhattanDistance a b
  = Z.abs (Vec2.x a - Vec2.x b) + Z.abs (Vec2.y a - Vec2.y b).
Proof.
  intros [Hax Hay] [Hbx Hby]. unfold ManhattanDistance. cbv zeta.
  change (2 ^ 29) with 536870912 in *.
  rewrite !(wrap_int_id (_ - _))
    by (unfold is_int; change (2 ^ 31) with 2147483648; lia).
  rewrite !int_abs_id by (change (2 ^ 31) with 2147483648; lia).
  apply wrap_int_id. unfold is_int.
  change (2 ^ 31) with 2147483648. lia.
Qed.

(** X3: on points with coordinates in [[-2^29, 2^29)],
    [ManhattanDistance] is the sum of the absolute coordinate
    differences and a metric: it is not negative, 0 exactly for equal
    points, symmetric, and satisfies the triangle inequality. *)
Theorem ManhattanDistance_metric (a b c : Vec2) :
  small a -> small b -> small c ->
  ManhattanDistance a b
  = Z.abs (Vec2.x a - Vec2.x b) + Z.abs (Vec2.y a - Vec2.y b) /\
  0 <= ManhattanDistance a b /\
  (ManhattanDistance a b = 0 <-> a = b) /\
  ManhattanDistance a b = ManhattanDistance b a /\
  ManhattanDistance a c <= ManhattanDistance a b + ManhattanDistance b c.
Proof.
  intros Ha Hb Hc.
  rewrite !ManhattanDistance_exact by done.
  destruct a as [ax ay], b as [bx by_], c as [cx cy].
  cbn [Vec2.x Vec2.y]. split; [done|]. split; [lia|].
  split; [|split; lia]. split.
  - intros H. assert (ax = bx) by lia. assert (ay = by_) by lia.
    by subst.
  - intros [= -> ->]. lia.
Qed.


(** *** Colours *)

Lemma SeedToColor_abort (point : Vec2) :
  ~ packable point -> SeedToColor point = Stop AssertionFailed.
Proof.
  intros Hn. unfold SeedToColor.
  change (wrap_int (Z.shiftl 1 16)) with 65536.
  destruct (Vec2.x point >=? 0) eqn:H1; [|reflexivity].
  destruct (Vec2.y point >=? 0) eqn:H2; [|reflexivity].
  destruct (Vec2.x point <? 65536) eqn:H3; [|reflexivity].
  destruct (Vec2.y point <? 65536) eqn:H4; [|reflexivity].
  exfalso. apply Hn. unfold packable. lia.
Qed.

(** X5: [SeedToColor] returns a colour exactly for the points whose two
    coordinates lie in [[0, 65536)], and that colour is [x << 16 ^ y];
    on every other point one of its four assertions fails. *)
Theorem SeedToColor_Ok_iff_packable (point : Vec2) (c : Color) :
  (SeedToColor point = Ok c <-> packable point /\ c = pack point) /\
  (~ packable point -> SeedToColor point = Stop AssertionFailed).
Proof.
  split; [|apply SeedToColor_abort]. split.
  - intros H.
    assert (packable point) as Hp.
    { destruct (decide (0 <= Vec2.x point < 65536 /\
                        0 <= Vec2.y point < 65536)) as [Hp|Hn]; [done|].
      rewrite (SeedToColor_abort point Hn) in H. discriminate. }
    split; [done|]. rewrite (SeedToColor_pack point Hp) in H. congruence.
  - intros [Hp ->]. by apply SeedToColor_pack.
Qed.

Lemma unpack_pack (p : Vec2) : packable p -> unpack (pack p) = p.
Proof.
  intros Hp. unfold unpack. rewrite (pack_high_bits p Hp).
  rewrite (pack_sum p Hp). destruct Hp as [Hx Hy].
  change 0xFFFF with (Z.ones 16). rewrite Z.land_ones by lia.
  change (2 ^ 16) with 65536.
  rewrite Z.add_comm, Z.mod_add, Z.mod_small by lia.
  by destruct p.
Qed.

(** X6: the colour [SeedToColor] returns determines the point: the
    coordinates are read back as [c >> 16] and [c & 0xFFFF], so two
    points with the same colour are the same point. *)
Theorem SeedToColor_unpack (p q : Vec2) (c : Color) :
  SeedToColor p = Ok c ->
  unpack c = p /\ (SeedToColor q = Ok c -> q = p).
Proof.
  assert (forall r, SeedToColor r = Ok c -> unpack c = r) as Hback.
  { intros r Hr.
    destruct (decide (0 <= Vec2.x r < 65536 /\ 0 <= Vec2.y r < 65536))
      as [Hp|Hn].
    - rewrite (SeedToColor_pack r Hp) in Hr. injection Hr as <-.
      by apply unpack_pack.
    - rewrite (SeedToColor_abort r Hn) in Hr. discriminate. }
  intros Hp. split; [by apply Hback|].
  intros Hq. by rewrite <- (Hback p Hp), <- (Hback q Hq).
Qed.

Lemma pixel_bytes_pack (p : Vec2) :
  packable p ->
  pixel_bytes (pack p)
  = [ Vec2.y p mod 256; Vec2.y p / 256; Vec2.x p mod 256 ].
Proof.
  intros Hp. rewrite pixel_bytes_spec, (pack_sum p Hp).
  destruct Hp as [Hx Hy].
  generalize dependent (Vec2.x p). generalize dependent (Vec2.y p).
  intros b Hb a Ha.
  assert ((a * 65536 + b) mod 256 = b mod 256) as ->
    by (Z.div_mod_to_equations; lia).
  assert (((a * 65536 + b) / 256) mod 256 = b / 256) as ->
    by (Z.div_mod_to_equations; lia).
  assert (((a * 65536 + b) / 65536) mod 256 = a mod 256) as ->
    by (Z.div_mod_to_equations; lia).
  reflexivity.
Qed.

(** X7: the three bytes written for a pixel of a seed's region are the
    low byte of the seed's [y], its high byte, and the low byte of its
    [x]: two seeds are written in the same file colour exactly when they
    have the same [y] and their [x] agree modulo 256, although their
    colours in the grid differ. *)
Theorem file_color_of_seed (p q : Vec2) :
  packable p -> packable q ->
  pixel_bytes (pack p)
  = [ Vec2.y p mod 256; Vec2.y p / 256; Vec2.x p mod 256 ] /\
  (pixel_bytes (pack p) = pixel_bytes (pack q) <->
   Vec2.y p = Vec2.y q /\ Vec2.x p mod 256 = Vec2.x q mod 256).
Proof.
  intros Hp Hq. rewrite !pixel_bytes_pack by done.
  split; [done|]. split.
  - intros [= H0 H1 H2]. split; [|done].
    revert H0 H1. Z.div_mod_to_equations. lia.
  - intros [-> ->]. done.
Qed.

(** *** Loops that stop *)



(** *** More on the raster primitives *)


(** X9: on a grid of the declared shape, [FillCircle] stores the colour
    into the cells of the grid that lie in the square
    [[origin.x - radius, origin.x + radius) x
     [origin.y - radius, origin.y + radius)] and pass the distance test,
    and into no other: every other cell keeps its colour. *)
Theorem FillCircle_cells (origin : Vec2) (radius : Z) (color : Color)
    (image : Image) :
  image_shape image ->
  exists image',
    FillCircle origin radius color image = Ok image' /\
    image_shape image' /\
    forall row col,
      cell image' row col =
        if FillCircle_covers origin radius row col then Some color
        else cell image row col.
Proof.
  intros Hsh.
  destruct (paints_FillCircle origin radius color image Hsh)
    as (image' & Hrun & Hsh' & Hcells).
  exists image'. split; [done|]. split; [done|].
  intros row col. destruct (Hcells row col) as (Hyes & Hno & _).
  destruct (FillCircle_covers origin radius row col) eqn:Hc.
  - by apply Hyes.
  - apply Hno. congruence.
Qed.

(** X10: with a radius that is 0 or negative, and no overflow in
    [origin.x - radius] and [origin.x + radius], [FillCircle] leaves
    the grid as it found it. *)
Theorem FillCircle_nonpositive_radius (origin : Vec2) (radius : Z)
    (color : Color) (image : Image) :
  radius <= 0 ->
  is_int (Vec2.x origin - radius) -> is_int (Vec2.x origin + radius) ->
  FillCircle origin radius color image = Ok image.
Proof.
  intros Hr H1 H2. unfold FillCircle. cbv zeta. cbn [Vec2.x].
  apply for_range_empty. rewrite !wrap_int_id by done. lia.
Qed.

Lemma FillCircle_covers_centre (origin : Vec2) (radius : Z) :
  in_raster origin -> WIDTH <= 2 ^ 15 -> HEIGHT <= 2 ^ 15 ->
  1 <= radius < 2 ^ 15 ->
  FillCircle_covers origin radius (Vec2.y origin) (Vec2.x origin) = true.
Proof.
  intros [Hx Hy] HW HH Hr. unfold FillCircle_covers.
  change (2 ^ 15) with 32768 in *.
  rewrite !(wrap_int_id (_ - _)), !(wrap_int_id (_ + _)), wrap_int_id
    by (unfold is_int; change (2 ^ 31) with 2147483648; nia).
  rewrite SquareDistance_exact
    by (cbn [Vec2.x Vec2.y]; change (2 ^ 15) with 32768; lia).
  cbn [Vec2.x Vec2.y].
  rewrite !andb_true_iff. repeat split.
  - apply in_image_spec. lia.
  - apply Z.leb_le. lia.
  - apply Z.ltb_lt. lia.
  - apply Z.leb_le. lia.
  - apply Z.ltb_lt. lia.
  - apply Z.leb_le. nia.
Qed.

(** X11: [RenderSeedMarkers] runs to completion on every seed array of
    the declared length; it stores the marker colour into the cells
    some seed's disc of radius 4 covers and leaves every other cell
    unchanged. *)
Theorem RenderSeedMarkers_cells (seeds : list Vec2) (image : Image) :
  seeds_shape seeds -> image_shape image ->
  exists image',
    RenderSeedMarkers seeds image = Ok image' /\
    image_shape image' /\
    forall row col,
      ((exists i s, seeds_get seeds i = Ok s /\
          FillCircle_covers s SEED_MARKER_RADIUS row col = true) ->
       cell image' row col = Some SEED_MARKER_COLOR) /\
      (~ (exists i s, seeds_get seeds i = Ok s /\
            FillCircle_covers s SEED_MARKER_RADIUS row col = true) ->
       cell image' row col = cell image row col).
Proof.
  intros Hseeds Hsh.
  destruct (paints_RenderSeedMarkers seeds Hseeds image Hsh)
    as (image' & Hrun & Hsh' & Hcells).
  exists image'. split; [done|]. split; [done|].
  intros row col. destruct (Hcells row col) as (Hyes & Hno & _).
  by split.
Qed.

(** X12: in a raster of at most 32768 by 32768 pixels, after
    [RenderSeedMarkers] the pixel at the position of every seed of the
    raster holds the marker colour. *)
Theorem RenderSeedMarkers_marks_seed (seeds : list Vec2) (image : Image) :
  seeds_shape seeds -> image_shape image ->
  WIDTH <= 2 ^ 15 -> HEIGHT <= 2 ^ 15 ->
  Forall in_raster seeds ->
  exists image',
    RenderSeedMarkers seeds image = Ok image' /\
    forall i s, seeds_get seeds i = Ok s ->
      cell image' (Vec2.y s) (Vec2.x s) = Some SEED_MARKER_COLOR.
Proof.
  intros Hseeds Hsh HW HH Hin.
  destruct (paints_RenderSeedMarkers seeds Hseeds image Hsh)
    as (image' & Hrun & _ & Hcells).
  exists image'. split; [done|]. intros i s Hs.
  destruct (Hcells (Vec2.y s) (Vec2.x s)) as (Hyes & _).
  apply Hyes. exists i, s. split; [done|].
  apply FillCircle_covers_centre; [|done|done|].
  - by apply (seeds_get_Forall _ _ _ _ Hin Hs).
  - unfold SEED_MARKER_RADIUS. change (2 ^ 15) with 32768. lia.
Qed.

(** *** More on the classification *)


(** X14: in a raster of at most 32768 by 32768 pixels with its seeds
    inside, [RenderVoronoi] gives the pixel at the position of a seed
    the colour of that seed. *)
Theorem RenderVoronoi_at_seed (seeds : list Vec2) (image : Image)
    (i : Z) (s : Vec2) :
  seeds_shape seeds ->
  WIDTH <= 2 ^ 15 -> HEIGHT <= 2 ^ 15 ->
  Forall in_raster seeds ->
  image_shape image ->
  seeds_get seeds i = Ok s ->
  exists image',
    RenderVoronoi seeds image = Ok image' /\
    cell image' (Vec2.y s) (Vec2.x s) = Some (pack s).
Proof.
  intros Hsh HW HH Hin Himg Hs.
  change (2 ^ 15) with 32768 in HW, HH.
  assert (1 <= SEEDS_COUNT) as Hne.
  { apply seeds_get_Ok in Hs as [Hi _]. destruct Hsh as [-> _]. lia. }
  assert (Forall packable seeds) as Hpack.
  { eapply Forall_impl; [exact Hin|]. intros p [? ?]. unfold packable. lia. }
  pose proof (seeds_get_Forall _ _ _ _ Hin Hs) as [Hsx Hsy].
  destruct (RenderVoronoi_cells seeds image Hsh Hne Hpack Himg)
    as (image' & Hrun & _ & Hcells).
  exists image'. split; [done|].
  rewrite Hcells by done.
  destruct (closest_seed_scan_first_min seeds
              (Vec2.mk (Vec2.x s) (Vec2.y s)) Hsh Hne)
    as (k & sk & Hk & Hsk & Hmin).
  destruct (voronoi_pixel_Ok seeds (Vec2.x s) (Vec2.y s) Hsh Hne Hpack)
    as (k' & sk' & Hk' & Hsk' & ->).
  assert (k' = k) as -> by congruence.
  assert (sk' = sk) as -> by congruence.
  cbn [result_or]. do 2 f_equal.
  destruct (Hmin i s Hs) as [Hle _].
  pose proof (seeds_get_Forall _ _ _ _ Hin Hsk) as [Hkx Hky].
  rewrite !SquareDistance_exact in Hle
    by (cbn [Vec2.x Vec2.y]; change (2 ^ 15) with 32768; lia).
  cbn [Vec2.x Vec2.y] in Hle.
  destruct sk as [kx ky], s as [sx sy]. cbn [Vec2.x Vec2.y] in *.
  replace ((sx - sx) * (sx - sx) + (sy - sy) * (sy - sy)) with 0 in Hle
    by ring.
  pose proof (Z.square_nonneg (kx - sx)) as Hu.
  pose proof (Z.square_nonneg (ky - sy)) as Hv.
  assert (kx - sx = 0) by (clear - Hle Hu Hv; nia).
  assert (ky - sy = 0) by (clear - Hle Hu Hv; nia).
  f_equal; lia.
Qed.

(** *** More on seed generation *)

Lemma GenerateRandomSeeds_steps (RandState : Type)
    (rand : RandState -> Z * RandState) (n i : nat) (sd : list Vec2)
    (rs : RandState) :
  WIDTH <> 0 -> HEIGHT <> 0 ->
  (i + n <= length sd)%nat ->
  for_steps n (Z.of_nat i) (fun i '(seeds, rs) =>
    let '(r, rs) := rand rs in
    v ← int_rem r WIDTH;
    seeds ← seeds_set_x seeds i v;
    let '(r, rs) := rand rs in
    v ← int_rem r HEIGHT;
    seeds ← seeds_set_y seeds i v;
    Ok (seeds, rs)) (sd, rs)
  = Ok (take i sd ++ (seeds_from rand n rs).1 ++ drop (i + n) sd,
        (seeds_from rand n rs).2).
Proof.
  intros HW HH.
  match goal with
  | |- _ -> for_steps _ _ ?b _ = _ => set (body := b)
  end.
  revert i sd rs. induction n as [|n IH]; intros i sd rs Hlen.
  - cbn. by rewrite Nat.add_0_r, take_drop.
  - cbn [for_steps seeds_from].
    destruct (rand rs) as [r1 rs1] eqn:Hr1.
    destruct (rand rs1) as [r2 rs2] eqn:Hr2.
    destruct (lookup_lt_is_Some_2 sd i) as [old Hold]; [lia|].
    assert (body (Z.of_nat i) (sd, rs)
            = Ok (alter (fun s => Vec2.mk (Vec2.x s) (wrap_int (Z.rem r2 HEIGHT)))
                    i (alter (fun s => Vec2.mk (wrap_int (Z.rem r1 WIDTH))
                                         (Vec2.y s)) i sd), rs2)) as ->.
    { unfold body. rewrite Hr1. unfold int_rem.
      replace (WIDTH =? 0) with false by lia.
      replace (HEIGHT =? 0) with false by lia.
      assert ((0 <=? Z.of_nat i) && (Z.of_nat i <? Z.of_nat (length sd))
              = true) as Hidx by (apply andb_true_iff; lia).
      unfold seeds_set_x. rewrite Hidx.
      unfold mbind, result_bind. rewrite Hr2.
      unfold seeds_set_y. rewrite length_alter, Hidx.
      by rewrite Nat2Z.id. }
    unfold mbind, result_bind.
    replace (Z.of_nat i + 1) with (Z.of_nat (Datatypes.S i)) by lia.
    rewrite IH by (rewrite !length_alter; lia).
    destruct (seeds_from rand n rs2) as [rest rs']. cbn [fst snd].
    do 2 f_equal.
    rewrite (take_S_r _ _ (Vec2.mk (wrap_int (Z.rem r1 WIDTH))
                                   (wrap_int (Z.rem r2 HEIGHT)))).
    + rewrite !take_alter_ge, !drop_alter_lt by lia.
      rewrite <- app_assoc. cbn.
      by replace (Datatypes.S (i + n)) with (i + Datatypes.S n)%nat by lia.
    + rewrite !list_lookup_alter_eq, Hold. reflexivity.
Qed.

(** X15: in a raster of width and height other than 0,
    [GenerateRandomSeeds] runs to completion, whatever the array held
    and whatever [rand] returns; it draws twice per seed, in the order
    of the array, the [x] of a seed before its [y], and leaves
    [(r1 % WIDTH, r2 % HEIGHT)] for the two draws of each seed. *)
Theorem GenerateRandomSeeds_draw_order (RandState : Type)
    (rand : RandState -> Z * RandState) (seeds0 : list Vec2)
    (rs : RandState) :
  WIDTH <> 0 -> HEIGHT <> 0 ->
  seeds_shape seeds0 ->
  GenerateRandomSeeds RandState rand seeds0 rs
  = Ok (seeds_from rand (length seeds0) rs).
Proof.
  intros HW HH [Hlen _]. unfold GenerateRandomSeeds, for_range.
  replace (Z.to_nat (SEEDS_COUNT - 0)) with (length seeds0) by lia.
  change 0 with (Z.of_nat 0).
  rewrite (GenerateRandomSeeds_steps RandState rand (length seeds0) 0
             seeds0 rs HW HH) by lia.
  cbn [Nat.add]. rewrite take_0, drop_all, app_nil_r. cbn [app].
  by destruct (seeds_from rand (length seeds0) rs).
Qed.

(** *** More on serialisation *)

Lemma SaveImageAsPPM_until_close (os : OS) (filePath : string)
    (image : Image) :
  fopen_succeeds os = true ->
  (forall n, ferror_after os n = false) ->
  image_shape image ->
  SaveImageAsPPM os filePath image []
  = (ppm_trace filePath image, assert (fclose_result os =? 0)).
Proof.
  intros Hopen Hferr Hsh.
  unfold SaveImageAsPPM, fopen. rewrite Hopen.
  unfold mbind at 1 2 3 4 5. unfold IO_bind at 1 2 3 4 5. cbn [emit app].
  unfold mret at 1. unfold IO_ret at 1.
  unfold mbind at 1. unfold IO_bind at 1. cbn [fprintf emit app].
  unfold mbind at 1. unfold IO_bind at 1. cbn [fprintf emit app].
  unfold mbind at 1. unfold IO_bind at 1.
  unfold mret at 1. unfold IO_ret at 1.
  unfold mbind at 1. unfold IO_bind at 1.
  rewrite (pixel_loops_trace os image _ Hferr Hsh).
  unfold mbind at 1. unfold IO_bind at 1.
  unfold fclose. unfold mbind at 1. unfold IO_bind at 1. cbn [emit].
  unfold mret at 1. unfold IO_ret at 1.
  unfold lift, ppm_trace. by rewrite <- !app_assoc.
Qed.

(** X16: when the file opens and every write succeeds but [fclose]
    returns a value other than 0, [SaveImageAsPPM] has written the
    header and every pixel and closed the stream, and then stops on its
    last assertion. *)
Theorem SaveImageAsPPM_close_error (os : OS) (filePath : string)
    (image : Image) :
  fopen_succeeds os = true ->
  (forall n, ferror_after os n = false) ->
  fclose_result os <> 0 ->
  image_shape image ->
  SaveImageAsPPM os filePath image []
  = (ppm_trace filePath image, Stop AssertionFailed).
Proof.
  intros Hopen Hferr Hclose Hsh.
  rewrite SaveImageAsPPM_until_close by done.
  by replace (fclose_result os =? 0) with false by lia.
Qed.

Lemma length_concat_rows (rows : list (list Z)) (w : nat) :
  Forall (fun r => length r = w) rows ->
  length (concat rows) = (length rows * w)%nat.
Proof.
  induction 1 as [|r rows Hr _ IH]; [done|].
  cbn. rewrite length_app, IH, Hr. lia.
Qed.

Lemma pixel_bytes_range (pixel : Color) :
  length (pixel_bytes pixel) = 3%nat /\
  Forall (fun b => 0 <= b < 256) (pixel_bytes pixel).
Proof.
  rewrite pixel_bytes_spec. split; [done|].
  repeat constructor; apply Z.mod_pos_bound; lia.
Qed.

(** X17: when the file opens and every write and the close succeed, the
    file holds the two header lines and then, for each of the
    [HEIGHT * WIDTH] pixels, one block of exactly three bytes, each
    between 0 and 255, whatever 32-bit or wider value the cell held. *)
Theorem SaveImageAsPPM_size (os : OS) (filePath : string)
    (image : Image) :
  fopen_succeeds os = true ->
  (forall n, ferror_after os n = false) ->
  fclose_result os = 0 ->
  image_shape image ->
  exists data,
    SaveImageAsPPM os filePath image []
    = ([ Fopen filePath "wb";
         Fprintf OutFile "P6\n" [];
         Fprintf OutFile "%d %d 255\n" [ArgInt WIDTH; ArgInt HEIGHT] ]
       ++ (Fwrite OutFile <$> data) ++ [ Fclose OutFile ], Ok tt) /\
    length data = (Z.to_nat HEIGHT * Z.to_nat WIDTH)%nat /\
    Forall (fun bytes => length bytes = 3%nat /\
                         Forall (fun b => 0 <= b < 256) bytes) data.
Proof.
  intros Hopen Hferr Hclose Hsh.
  exists (pixel_bytes <$> concat image). split; [|split].
  - rewrite (SaveImageAsPPM_trace os filePath image Hopen Hferr Hclose Hsh).
    unfold ppm_trace. by rewrite list_fmap_compose.
  - destruct Hsh as [Hlen Hrows].
    by rewrite length_fmap, (length_concat_rows _ _ Hrows), Hlen.
  - apply Forall_fmap, Forall_true. intros pixel. apply pixel_bytes_range.
Qed.

Lemma io_for_steps_fault {S : Type} (P : Fault -> Prop)
    (body : Z -> S -> IO S) (n : nat) (i : Z) (s : S)
    (tr tr' : list Event) (f : Fault) :
  (forall j t tr1 tr2 g, body j t tr1 = (tr2, Stop g) -> P g) ->
  for_steps n i body s tr = (tr', Stop f) -> P f.
Proof.
  intros Hbody. revert i s tr. induction n as [|n IH]; intros i s tr.
  - discriminate.
  - cbn [for_steps]. unfold mbind, IO_bind.
    destruct (body i s tr) as [tr1 [t|g]] eqn:Hb.
    + apply IH.
    + intros [= <- <-]. by eapply Hbody.
Qed.

(** X18: no run of [SaveImageAsPPM] ends in [exit]: when [fopen] fails
    the run stops at the [fprintf] on the [NULL] stream, and when it
    succeeds the branch holding [exit(1)] is not taken, so that the
    only ways the routine stops are a failed assertion, a subscript out
    of bounds and the [NULL] stream. *)
Theorem SaveImageAsPPM_never_exits (os : OS) (filePath : string)
    (image : Image) (tr tr' : list Event) (f : Fault) :
  SaveImageAsPPM os filePath image tr = (tr', Stop f) ->
  f = NullStream \/ f = AssertionFailed \/ f = OutOfBounds.
Proof.
  unfold SaveImageAsPPM, fopen.
  destruct (fopen_succeeds os).
  - unfold mbind at 1 2 3 4 5. unfold IO_bind at 1 2 3 4 5. cbn [emit app].
    unfold mret at 1. unfold IO_ret at 1.
    unfold mbind at 1. unfold IO_bind at 1. cbn [fprintf emit app].
    unfold mbind at 1. unfold IO_bind at 1. cbn [fprintf emit app].
    unfold mbind at 1. unfold IO_bind at 1.
    unfold mret at 1. unfold IO_ret at 1.
    unfold mbind at 1. unfold IO_bind at 1.
    match goal with
    | |- context [for_range 0 HEIGHT ?b tt ?t] =>
        destruct (for_range 0 HEIGHT b tt t) as [tr1 [[]|g]] eqn:Hloop
    end.
    + unfold fclose. unfold mbind at 1 2. unfold IO_bind at 1 2.
      cbn [emit]. unfold mret at 1. unfold IO_ret at 1. unfold lift.
      destruct (fclose_result os =? 0); cbn; [discriminate|].
      intros [= _ <-]. tauto.
    + intros [= _ <-].
      unfold for_range in Hloop.
      apply (io_for_steps_fault
        (fun g => g = NullStream \/ g = AssertionFailed \/ g = OutOfBounds))
        in Hloop; [done|].
      intros y [] tr2 tr3 g' Hin. unfold for_range in Hin.
      apply (io_for_steps_fault
        (fun g => g = NullStream \/ g = AssertionFailed \/ g = OutOfBounds))
        in Hin; [done|].
      intros x [] tr4 tr5 g''.
      unfold mbind, IO_bind, lift, image_get.
      destruct (cell image y x) as [c|]; [|intros [= _ <-]; tauto].
      cbn. destruct (ferror_after os _); cbn; [|discriminate].
      intros [= _ <-]. tauto.
  - cbn. intros [= _ <-]. tauto.
Qed.

(** *** A write that fails *)

Lemma count_fwrite_app (t1 t2 : list Event) :
  count_fwrite (t1 ++ t2) = (count_fwrite t1 + count_fwrite t2)%nat.
Proof.
  induction t1 as [|e t1 IH]; [done|].
  destruct e; cbn; rewrite IH; lia.
Qed.

Lemma count_fwrite_pixels (pixels : list Z) :
  count_fwrite (Fwrite OutFile ∘ pixel_bytes <$> pixels) = length pixels.
Proof. induction pixels as [|c l IH]; [done|]. cbn. by rewrite IH. Qed.

Lemma io_for_steps_split {S : Type} (body : Z -> S -> IO S)
    (n m : nat) (i : Z) (s : S) (tr : list Event) :
  for_steps (n + m) i body s tr
  = match for_steps n i body s tr with
    | (tr', Ok s') => for_steps m (i + Z.of_nat n) body s' tr'
    | (tr', Stop f) => (tr', Stop f)
    end.
Proof.
  revert i s tr. induction n as [|n IH]; intros i s tr.
  - cbn. by rewrite Z.add_0_r.
  - cbn [for_steps Nat.add]. unfold mbind, IO_bind.
    destruct (body i s tr) as [tr1 [t|f]]; [|done].
    rewrite IH.
    by replace (i + 1 + Z.of_nat n) with (i + Z.of_nat (Datatypes.S n))
      by lia.
Qed.

Lemma pixel_step (os : OS) (image : Image) (y x : Z) (c : Color)
    (t : list Event) :
  cell image y x = Some c ->
  (fun x (_ : unit) =>
      pixel ← lift (image_get image y x);
      let bytes := pixel_bytes pixel in
      _ ← fwrite (Some OutFile) bytes;
      e ← ferror os (Some OutFile);
      lift (assert (negb e))) x tt t
  = (t ++ [Fwrite OutFile (pixel_bytes c)],
     if ferror_after os (Datatypes.S (count_fwrite t))
     then Stop AssertionFailed else Ok tt).
Proof.
  intros Hc. unfold mbind, IO_bind, lift, image_get. rewrite Hc.
  cbn [fwrite emit ferror]. rewrite count_fwrite_app. cbn [count_fwrite].
  rewrite Nat.add_1_r. by destruct (ferror_after os _).
Qed.

Lemma pixel_row_trace (os : OS) (image : Image) (y : Z) (r : list Z)
    (tr : list Event) (m : nat) :
  0 <= y < HEIGHT ->
  image !! Z.to_nat y = Some r ->
  length r = Z.to_nat WIDTH ->
  (m <= length r)%nat ->
  (forall n, (count_fwrite tr < n <= count_fwrite tr + m)%nat ->
     ferror_after os n = false) ->
  for_steps m 0 (fun x (_ : unit) =>
      pixel ← lift (image_get image y x);
      let bytes := pixel_bytes pixel in
      _ ← fwrite (Some OutFile) bytes;
      e ← ferror os (Some OutFile);
      lift (assert (negb e))) tt tr
  = (tr ++ (Fwrite OutFile ∘ pixel_bytes <$> take m r), Ok tt).
Proof.
  intros Hy Hr Hlr Hm Hferr.
  destruct (io_for_steps_inv
    (fun x (_ : unit) t =>
       t = tr ++ (Fwrite OutFile ∘ pixel_bytes <$> take (Z.to_nat x) r))
    (fun x (_ : unit) =>
      pixel ← lift (image_get image y x);
      let bytes := pixel_bytes pixel in
      _ ← fwrite (Some OutFile) bytes;
      e ← ferror os (Some OutFile);
      lift (assert (negb e))) m 0 tt tr) as ([] & tr' & -> & ->).
  - cbn. by rewrite app_nil_r.
  - intros x [] t Hx ->.
    destruct (lookup_lt_is_Some_2 r (Z.to_nat x)) as [c Hc]; [lia|].
    assert (cell image y x = Some c) as Hcell.
    { unfold cell.
      replace (in_image y x) with true
        by (symmetry; apply in_image_spec; lia).
      rewrite Hr. cbn. exact Hc. }
    exists tt. eexists. split.
    + rewrite (pixel_step os image y x c _ Hcell).
      rewrite count_fwrite_app, count_fwrite_pixels, length_take_le by lia.
      rewrite Hferr by lia. reflexivity.
    + replace (Z.to_nat (x + 1)) with (Datatypes.S (Z.to_nat x)) by lia.
      by rewrite (take_S_r _ _ _ Hc), fmap_app, <- app_assoc.
  - by replace (Z.to_nat (0 + Z.of_nat m)) with m by lia.
Qed.

Lemma pixel_rows_trace (os : OS) (image : Image) (tr : list Event)
    (m : nat) :
  image_shape image ->
  (m <= length image)%nat ->
  (forall n, (count_fwrite tr < n
              <= count_fwrite tr + m * Z.to_nat WIDTH)%nat ->
     ferror_after os n = false) ->
  for_steps m 0 (fun y (_ : unit) =>
    for_range 0 WIDTH (fun x (_ : unit) =>
      pixel ← lift (image_get image y x);
      let bytes := pixel_bytes pixel in
      _ ← fwrite (Some OutFile) bytes;
      e ← ferror os (Some OutFile);
      lift (assert (negb e))) tt) tt tr
  = (tr ++ (Fwrite OutFile ∘ pixel_bytes <$> concat (take m image)), Ok tt).
Proof.
  intros [Hlen Hrows] Hm Hferr.
  destruct (io_for_steps_inv
    (fun y (_ : unit) t =>
       t = tr ++ (Fwrite OutFile ∘ pixel_bytes
                    <$> concat (take (Z.to_nat y) image)))
    (fun y (_ : unit) =>
    for_range 0 WIDTH (fun x (_ : unit) =>
      pixel ← lift (image_get image y x);
      let bytes := pixel_bytes pixel in
      _ ← fwrite (Some OutFile) bytes;
      e ← ferror os (Some OutFile);
      lift (assert (negb e))) tt) m 0 tt tr) as ([] & tr' & -> & ->).
  - cbn. by rewrite app_nil_r.
  - intros y [] t Hy ->.
    destruct (lookup_lt_is_Some_2 image (Z.to_nat y)) as [r Hr]; [lia|].
    assert (length r = Z.to_nat WIDTH) as Hlr
      by (eapply (Forall_lookup_1 _ _ _ _ Hrows); eassumption).
    exists tt. eexists. split.
    + unfold for_range.
      replace (Z.to_nat (WIDTH - 0)) with (length r) by lia.
      apply (pixel_row_trace os image y r _ (length r));
        [lia|done|done|done|].
      intros n Hn. apply Hferr. revert Hn.
      rewrite count_fwrite_app, count_fwrite_pixels.
      rewrite (length_concat_rows _ (Z.to_nat WIDTH))
        by (by apply Forall_take).
      rewrite length_take_le by lia. nia.
    + replace (Z.to_nat (y + 1)) with (Datatypes.S (Z.to_nat y)) by lia.
      rewrite (take_S_r _ _ _ Hr), concat_app, fmap_app. cbn.
      by rewrite app_nil_r, <- app_assoc, firstn_all.
  - by replace (Z.to_nat (0 + Z.of_nat m)) with m by lia.
Qed.

Lemma take_concat_rows (image : Image) (w y j : nat) (r : list Z) :
  Forall (fun r => length r = w) image ->
  image !! y = Some r -> (j <= w)%nat ->
  take (y * w + j) (concat image) = concat (take y image) ++ take j r.
Proof.
  intros Hrows Hr Hj.
  rewrite <- (take_drop_middle image y r Hr) at 1.
  rewrite concat_app. cbn [concat].
  rewrite take_app_add'.
  - f_equal. apply take_app_le.
    rewrite (Forall_lookup_1 _ _ _ _ Hrows Hr). done.
  - rewrite (length_concat_rows _ w) by (by apply Forall_take).
    apply lookup_lt_Some in Hr. rewrite length_take_le; lia.
Qed.

Lemma pixel_loops_stop (os : OS) (image : Image) (tr : list Event)
    (j : nat) :
  count_fwrite tr = O ->
  image_shape image ->
  (j < length (concat image))%nat ->
  (forall n, (n <= j)%nat -> ferror_after os n = false) ->
  ferror_after os (Datatypes.S j) = true ->
  for_range 0 HEIGHT (fun y (_ : unit) =>
    for_range 0 WIDTH (fun x (_ : unit) =>
      pixel ← lift (image_get image y x);
      let bytes := pixel_bytes pixel in
      _ ← fwrite (Some OutFile) bytes;
      e ← ferror os (Some OutFile);
      lift (assert (negb e))) tt) tt tr
  = (tr ++ (Fwrite OutFile ∘ pixel_bytes
              <$> take (Datatypes.S j) (concat image)),
     Stop AssertionFailed).
Proof.
  intros Htr Hsh Hj Hok Hbad. pose proof Hsh as [Hlen Hrows].
  rewrite (length_concat_rows _ _ Hrows), Hlen in Hj.
  set (w := Z.to_nat WIDTH) in *. set (h := Z.to_nat HEIGHT) in *.
  assert (0 < w)%nat as Hw by (destruct w; lia).
  pose proof (Nat.div_mod_eq j w) as Hdiv.
  pose proof (Nat.mod_upper_bound j w ltac:(lia)) as Hx0.
  set (y0 := (j / w)%nat) in *. set (x0 := (j mod w)%nat) in *.
  assert (y0 < h)%nat as Hy0 by nia.
  destruct (lookup_lt_is_Some_2 image y0) as [r Hr]; [lia|].
  assert (length r = w) as Hlr
    by (eapply (Forall_lookup_1 _ _ _ _ Hrows); eassumption).
  destruct (lookup_lt_is_Some_2 r x0) as [c Hc]; [lia|].
  unfold for_range at 1.
  replace (Z.to_nat (HEIGHT - 0))
    with (y0 + Datatypes.S (h - y0 - 1))%nat by lia.
  rewrite io_for_steps_split.
  assert (forall n, (count_fwrite tr < n <= count_fwrite tr + y0 * w)%nat ->
            ferror_after os n = false) as Hrows_ok
    by (intros n Hn; apply Hok; nia).
  pose proof (pixel_rows_trace os image tr y0 Hsh ltac:(lia) Hrows_ok)
    as Hrun.
  cbv zeta in Hrun |- *. rewrite Hrun. clear Hrun.
  cbn [for_steps]. unfold mbind at 1. unfold IO_bind at 1.
  unfold for_range at 1.
  replace (Z.to_nat (WIDTH - 0))
    with (x0 + Datatypes.S (w - x0 - 1))%nat by lia.
  rewrite io_for_steps_split.
  assert (count_fwrite
            (tr ++ (Fwrite OutFile ∘ pixel_bytes <$> concat (take y0 image)))
          = (y0 * w)%nat) as Hcount.
  { rewrite count_fwrite_app, count_fwrite_pixels, Htr.
    rewrite (length_concat_rows _ w) by (by apply Forall_take).
    rewrite length_take_le; lia. }
  pose proof (pixel_row_trace os image (0 + Z.of_nat y0) r
                (tr ++ (Fwrite OutFile ∘ pixel_bytes
                          <$> concat (take y0 image))) x0) as Hrun.
  cbv zeta in Hrun. rewrite Hrun; clear Hrun;
    [|lia|by rewrite Z.add_0_l, Nat2Z.id|done|lia|].
  2: { intros n Hn. apply Hok. rewrite Hcount in Hn. lia. }
  cbn [for_steps]. unfold mbind at 1. unfold IO_bind at 1.
  pose proof (pixel_step os image (0 + Z.of_nat y0) (0 + Z.of_nat x0) c)
    as Hstep.
  cbv zeta in Hstep. rewrite Hstep; clear Hstep.
  - rewrite count_fwrite_app, count_fwrite_pixels, Hcount.
    rewrite length_take_le by lia.
    replace (Datatypes.S (y0 * w + x0)) with (Datatypes.S j) by lia.
    rewrite Hbad. f_equal.
    replace (Datatypes.S j) with (y0 * w + Datatypes.S x0)%nat by lia.
    rewrite (take_concat_rows image w y0 (Datatypes.S x0) r Hrows Hr)
      by lia.
    rewrite (take_S_r _ _ _ Hc), !fmap_app, <- !app_assoc. reflexivity.
  - unfold cell.
    replace (in_image (0 + Z.of_nat y0) (0 + Z.of_nat x0)) with true
      by (symmetry; apply in_image_spec; lia).
    rewrite !Z.add_0_l, !Nat2Z.id, Hr. cbn. exact Hc.
Qed.

(** X19: when the error indicator of the stream is first set after the
    [k]-th [fwrite], [SaveImageAsPPM] stops there on its assertion: the
    file has received the header and the first [k] pixels in row-major
    order, no later pixel is written and the stream is not closed. *)
Theorem SaveImageAsPPM_write_error (os : OS) (filePath : string)
    (image : Image) (k : nat) :
  fopen_succeeds os = true ->
  image_shape image ->
  (1 <= k <= length (concat image))%nat ->
  (forall n, (n < k)%nat -> ferror_after os n = false) ->
  ferror_after os k = true ->
  SaveImageAsPPM os filePath image []
  = ([ Fopen filePath "wb";
       Fprintf OutFile "P6\n" [];
       Fprintf OutFile "%d %d 255\n" [ArgInt WIDTH; ArgInt HEIGHT] ]
     ++ (Fwrite OutFile ∘ pixel_bytes <$> take k (concat image)),
     Stop AssertionFailed).
Proof.
  intros Hopen Hsh Hk Hok Hbad.
  destruct k as [|j]; [lia|].
  unfold SaveImageAsPPM, fopen. rewrite Hopen.
  unfold mbind at 1 2 3 4 5. unfold IO_bind at 1 2 3 4 5. cbn [emit app].
  unfold mret at 1. unfold IO_ret at 1.
  unfold mbind at 1. unfold IO_bind at 1. cbn [fprintf emit app].
  unfold mbind at 1. unfold IO_bind at 1. cbn [fprintf emit app].
  unfold mbind at 1. unfold IO_bind at 1.
  unfold mret at 1. unfold IO_ret at 1.
  unfold mbind at 1. unfold IO_bind at 1.
  rewrite (pixel_loops_stop os image _ j); try done; try lia.
  intros n Hn. apply Hok. lia.
Qed.

(** *** The order of the seeds *)

Lemma marker_covered_iff (seeds : list Vec2) (row col : Z) :
  (exists i s, seeds_get seeds i = Ok s /\
     FillCircle_covers s SEED_MARKER_RADIUS row col = true) <->
  Exists (fun s => FillCircle_covers s SEED_MARKER_RADIUS row col = true)
    seeds.
Proof.
  rewrite Exists_exists. split.
  - intros (i & s & Hs & Hc). exists s. split; [|done].
    apply seeds_get_Ok in Hs as [_ Hs]. by eapply list_elem_of_lookup_2.
  - intros (s & Hs & Hc).
    apply list_elem_of_lookup_1 in Hs as [n Hn].
    exists (Z.of_nat n), s. split; [|done].
    apply seeds_get_Ok. rewrite Nat2Z.id. split; [|done].
    apply lookup_lt_Some in Hn. lia.
Qed.

(** X20: the grid [RenderSeedMarkers] leaves does not depend on the
    order of the seeds in the array: every marker has the same colour,
    so that overlapping discs give the same cells whichever is drawn
    last. *)
Theorem RenderSeedMarkers_order_free (seeds1 seeds2 : list Vec2)
    (image : Image) :
  seeds1 ≡ₚ seeds2 ->
  seeds_shape seeds1 -> image_shape image ->
  RenderSeedMarkers seeds1 image = RenderSeedMarkers seeds2 image.
Proof.
  intros Hperm Hs1 Hsh.
  assert (seeds_shape seeds2) as Hs2.
  { destruct Hs1 as [Hlen Hint]. split; [|done].
    by rewrite <- (Permutation_length Hperm). }
  destruct (paints_RenderSeedMarkers seeds1 Hs1 image Hsh)
    as (i1 & -> & Hsh1 & Hc1).
  destruct (paints_RenderSeedMarkers seeds2 Hs2 image Hsh)
    as (i2 & -> & Hsh2 & Hc2).
  f_equal. apply image_ext; [done|done|].
  intros row col _.
  destruct (Hc1 row col) as (Hyes1 & Hno1 & _).
  destruct (Hc2 row col) as (Hyes2 & Hno2 & _).
  rewrite marker_covered_iff in Hyes1, Hno1, Hyes2, Hno2.
  destruct (decide (Exists
    (fun s => FillCircle_covers s SEED_MARKER_RADIUS row col = true) seeds1))
    as [Hex|Hnex].
  - rewrite Hyes1 by done. rewrite Hyes2; [done|]. by rewrite <- Hperm.
  - rewrite Hno1 by done. rewrite Hno2; [done|]. by rewrite <- Hperm.
Qed.

End Raster.

(** ** Instances *)

Lemma scenario_seeds_in_raster : Forall (in_raster 10 10) scenario_seeds.
Proof.
  unfold scenario_seeds.
  repeat (constructor; [unfold in_raster; cbn; lia|]). constructor.
Qed.

Lemma scenario_seeds_packable : Forall packable scenario_seeds.
Proof.
  unfold scenario_seeds.
  repeat (constructor; [unfold packable; cbn; lia|]). constructor.
Qed.

Lemma scenario_seeds_shape : seeds_shape 2 scenario_seeds.
Proof. split; [reflexivity|]. change (2 ^ 31) with 2147483648. lia. Qed.

Lemma lcg_rand_range (state : Z) : 0 <= (lcg_rand state).1 < 2 ^ 31.
Proof. unfold lcg_rand. cbn [fst]. apply Z.mod_pos_bound. lia. Qed.

(** The scenario of the specification, run: pixel (0, 0) goes to the
    seed (2, 2), at squared distance 8 against 98, and receives 0x20002;
    pixel (9, 9) goes to the seed (7, 7). *)
Example scenario_classification :
  SquareDistance (Vec2.mk 2 2) (Vec2.mk 0 0) = 8 /\
  SquareDistance (Vec2.mk 7 7) (Vec2.mk 0 0) = 98 /\
  closest_seed_scan 2 scenario_seeds (Vec2.mk 0 0) 0 = Ok 0 /\
  closest_seed_scan 2 scenario_seeds (Vec2.mk 9 9) 0 = Ok 1 /\
  exists image',
    RenderVoronoi 10 10 2 scenario_seeds scenario_image = Ok image' /\
    cell 10 10 image' 0 0 = Some 0x20002 /\
    cell 10 10 image' 9 9 = Some 0x70007.
Proof.
  repeat (split; [reflexivity|]).
  eexists. split; [vm_compute; reflexivity|]. split; reflexivity.
Qed.

(** In a raster that is not square the subscripts of [FillImage] leave
    the declared bounds: with 2 columns and 1 row, [image[1][0]] is
    outside [image[1][2]]. *)
Example FillImage_not_square :
  FillImage 2 1 COLOR_BACKGROUND [[0; 0]] = Stop OutOfBounds /\
  FillImage_rowmajor 2 1 COLOR_BACKGROUND [[0; 0]]
  = Ok [[COLOR_BACKGROUND; COLOR_BACKGROUND]].
Proof. split; reflexivity. Qed.

Lemma RenderVoronoi_nearest_first_witness :
  exists image' k s,
    RenderVoronoi 10 10 2 scenario_seeds scenario_image = Ok image' /\
    closest_seed_scan 2 scenario_seeds (Vec2.mk 0 0) 0 = Ok k /\
    seeds_get scenario_seeds k = Ok s /\
    SeedToColor s = Ok (pack s) /\
    cell 10 10 image' 0 0 = Some (pack s) /\
    forall j t, seeds_get scenario_seeds j = Ok t ->
      sq_dist s (Vec2.mk 0 0) <= sq_dist t (Vec2.mk 0 0) /\
      (j < k -> sq_dist s (Vec2.mk 0 0) < sq_dist t (Vec2.mk 0 0)).
Proof.
  apply (RenderVoronoi_nearest_first 10 10 2 scenario_seeds scenario_image 0 0).
  - exact scenario_seeds_shape.
  - lia.
  - change (2 ^ 15) with 32768. lia.
  - change (2 ^ 15) with 32768. lia.
  - exact scenario_seeds_in_raster.
  - apply image_shape_replicate.
  - lia.
  - lia.
Defined.

Lemma region_color_packs_seed_witness :
  (forall p, packable p ->
     SeedToColor p = Ok (Z.lxor (Z.shiftl (Vec2.x p) 16) (Vec2.y p))) /\
  SeedToColor (Vec2.mk 2 2) = Ok 0x20002 /\
  exists image' k s,
    RenderVoronoi 10 10 2 scenario_seeds scenario_image = Ok image' /\
    closest_seed_scan 2 scenario_seeds (Vec2.mk 0 0) 0 = Ok k /\
    seeds_get scenario_seeds k = Ok s /\
    cell 10 10 image' 0 0 = Some (Z.lxor (Z.shiftl (Vec2.x s) 16) (Vec2.y s)).
Proof.
  apply (region_color_packs_seed 10 10 2 scenario_seeds scenario_image 0 0).
  - exact scenario_seeds_shape.
  - lia.
  - exact scenario_seeds_packable.
  - apply image_shape_replicate.
  - lia.
  - lia.
Defined.

Lemma SaveImageAsPPM_low_three_bytes_witness :
  SaveImageAsPPM 10 10 quiet_os OUTPUT_FILE_PATH scenario_image []
  = (ppm_trace 10 10 OUTPUT_FILE_PATH scenario_image, Ok tt) /\
  forall pixel,
    pixel_bytes pixel =
      [ Z.land pixel 0xFF;
        Z.land (Z.shiftr pixel 8) 0xFF;
        Z.land (Z.shiftr pixel 16) 0xFF ] /\
    Z.land pixel 0xFF
      + Z.shiftl (Z.land (Z.shiftr pixel 8) 0xFF) 8
      + Z.shiftl (Z.land (Z.shiftr pixel 16) 0xFF) 16
    = Z.land pixel 0xFFFFFF.
Proof.
  apply (SaveImageAsPPM_low_three_bytes 10 10 quiet_os OUTPUT_FILE_PATH
           scenario_image).
  - reflexivity.
  - intros n. reflexivity.
  - reflexivity.
  - apply image_shape_replicate.
Defined.

Lemma FillImage_square_witness :
  FillImage 10 10 COLOR_BACKGROUND scenario_image
  = FillImage_rowmajor 10 10 COLOR_BACKGROUND scenario_image /\
  FillImage 10 10 COLOR_BACKGROUND scenario_image
  = Ok (replicate (Z.to_nat 10) (replicate (Z.to_nat 10) COLOR_BACKGROUND)).
Proof.
  apply (FillImage_square 10 10 COLOR_BACKGROUND scenario_image).
  - reflexivity.
  - apply image_shape_replicate.
Defined.

Lemma FillCircle_stays_in_bounds_witness :
  (exists image',
     FillCircle 10 10 (Vec2.mk 9 9) SEED_MARKER_RADIUS SEED_MARKER_COLOR
       scenario_image = Ok image' /\
     image_shape 10 10 image' /\
     forall row col, cell 10 10 image' row col <> cell 10 10 scenario_image row col ->
       0 <= col < 10 /\ 0 <= row < 10) /\
  (forall seeds, seeds_shape 2 seeds ->
     exists image',
       RenderSeedMarkers 10 10 2 seeds scenario_image = Ok image' /\
       image_shape 10 10 image').
Proof.
  apply (FillCircle_stays_in_bounds 10 10 2 (Vec2.mk 9 9) SEED_MARKER_RADIUS
           SEED_MARKER_COLOR scenario_image).
  apply image_shape_replicate.
Defined.

Lemma GenerateRandomSeeds_in_raster_witness :
  exists seeds rs',
    GenerateRandomSeeds 10 10 2 Z lcg_rand scenario_seeds 1 = Ok (seeds, rs') /\
    seeds_shape 2 seeds /\
    Forall (in_raster 10 10) seeds /\
    (10 <= 65536 -> 10 <= 65536 ->
       Forall (fun s => SeedToColor s = Ok (pack s)) seeds /\
       forall image, 1 <= 2 -> image_shape 10 10 image ->
         exists image', RenderVoronoi 10 10 2 seeds image = Ok image').
Proof.
  apply (GenerateRandomSeeds_in_raster 10 10 2 Z lcg_rand scenario_seeds 1).
  - exact lcg_rand_range.
  - lia.
  - lia.
  - exact scenario_seeds_shape.
Defined.

Lemma RenderVoronoi_overwrites_background_witness :
  exists filled rendered final,
    FillImage 10 10 COLOR_BACKGROUND scenario_image = Ok filled /\
    RenderVoronoi 10 10 2 scenario_seeds filled = Ok rendered /\
    RenderSeedMarkers 10 10 2 scenario_seeds rendered = Ok final /\
    (forall other, image_shape 10 10 other ->
       RenderVoronoi 10 10 2 scenario_seeds other = Ok rendered) /\
    (forall x y, 0 <= x < 10 -> 0 <= y < 10 ->
       (exists s, s ∈ scenario_seeds /\
          cell 10 10 rendered y x = Some (pack s)) /\
       cell 10 10 rendered y x <> Some COLOR_BACKGROUND /\
       cell 10 10 final y x <> Some COLOR_BACKGROUND /\
       (10 <= 0x1717 -> forall c, cell 10 10 final y x = Some c ->
          pixel_bytes c <> pixel_bytes COLOR_BACKGROUND)).
Proof.
  apply (RenderVoronoi_overwrites_background 10 10 2 scenario_seeds
           scenario_image).
  - reflexivity.
  - lia.
  - exact scenario_seeds_shape.
  - lia.
  - exact scenario_seeds_in_raster.
  - apply image_shape_replicate.
Defined.

(** C2, as the code behaves: in the raster of [main.c], the disc of
    radius 5 around (50, 50) leaves the pixel (55, 50) as it was,
    although its squared distance to the centre is 25; the pixel
    (45, 50), as far on the other side, is painted.  The loops of
    [FillCircle] stop one short of [origin.x + radius] and of
    [origin.y + radius]. *)
Theorem FillCircle_misses_far_edge :
  exists image',
    FillCircle Source.WIDTH Source.HEIGHT (Vec2.mk 50 50) 5 SEED_MARKER_COLOR
      (replicate (Z.to_nat Source.HEIGHT)
         (replicate (Z.to_nat Source.WIDTH) COLOR_BACKGROUND))
    = Ok image' /\
    sq_dist (Vec2.mk 50 50) (Vec2.mk 55 50) <= 5 * 5 /\
    cell Source.WIDTH Source.HEIGHT image' 50 55 = Some COLOR_BACKGROUND /\
    sq_dist (Vec2.mk 50 50) (Vec2.mk 45 50) <= 5 * 5 /\
    cell Source.WIDTH Source.HEIGHT image' 50 45 = Some SEED_MARKER_COLOR.
Proof.
  destruct (paints_FillCircle Source.WIDTH Source.HEIGHT (Vec2.mk 50 50) 5
              SEED_MARKER_COLOR _
              (image_shape_replicate Source.WIDTH Source.HEIGHT
                 COLOR_BACKGROUND))
    as (image' & Hrun & _ & Hcells).
  exists image'. split; [exact Hrun|].
  split; [vm_compute; discriminate|].
  split; [|split; [vm_compute; discriminate|]].
  - destruct (Hcells 50 55) as (_ & Hno & _).
    rewrite Hno; [by apply cell_replicate|].
    vm_compute. discriminate.
  - destruct (Hcells 50 45) as (Hyes & _).
    apply Hyes. vm_compute. reflexivity.
Qed.

(** ** Instances of the further properties *)

Lemma SquareDistance_zero_iff_same_witness :
  SquareDistance (Vec2.mk 2 2) (Vec2.mk 0 0)
  = sq_dist (Vec2.mk 2 2) (Vec2.mk 0 0) /\
  0 <= SquareDistance (Vec2.mk 2 2) (Vec2.mk 0 0) /\
  (SquareDistance (Vec2.mk 2 2) (Vec2.mk 0 0) = 0
   <-> Vec2.mk 2 2 = Vec2.mk 0 0).
Proof.
  apply (SquareDistance_zero_iff_same (Vec2.mk 2 2) (Vec2.mk 0 0));
    cbn; change (2 ^ 15) with 32768; lia.
Defined.

Lemma small_scenario (x y : Z) :
  0 <= x < 10 -> 0 <= y < 10 -> small (Vec2.mk x y).
Proof.
  intros Hx Hy. unfold small. cbn [Vec2.x Vec2.y].
  change (2 ^ 29) with 536870912. lia.
Defined.

Lemma ManhattanDistance_metric_witness :
  ManhattanDistance (Vec2.mk 2 2) (Vec2.mk 7 7)
  = Z.abs (2 - 7) + Z.abs (2 - 7) /\
  0 <= ManhattanDistance (Vec2.mk 2 2) (Vec2.mk 7 7) /\
  (ManhattanDistance (Vec2.mk 2 2) (Vec2.mk 7 7) = 0
   <-> Vec2.mk 2 2 = Vec2.mk 7 7) /\
  ManhattanDistance (Vec2.mk 2 2) (Vec2.mk 7 7)
  = ManhattanDistance (Vec2.mk 7 7) (Vec2.mk 2 2) /\
  ManhattanDistance (Vec2.mk 2 2) (Vec2.mk 0 0)
  <= ManhattanDistance (Vec2.mk 2 2) (Vec2.mk 7 7)
     + ManhattanDistance (Vec2.mk 7 7) (Vec2.mk 0 0).
Proof.
  apply (ManhattanDistance_metric (Vec2.mk 2 2) (Vec2.mk 7 7) (Vec2.mk 0 0));
    apply small_scenario; lia.
Defined.


Lemma SeedToColor_unpack_witness :
  unpack 0x20002 = Vec2.mk 2 2 /\
  (SeedToColor (Vec2.mk 2 2) = Ok 0x20002 -> Vec2.mk 2 2 = Vec2.mk 2 2).
Proof.
  apply (SeedToColor_unpack (Vec2.mk 2 2) (Vec2.mk 2 2) 0x20002).
  reflexivity.
Defined.

Lemma file_color_of_seed_witness :
  pixel_bytes (pack (Vec2.mk 2 2)) = [ 2 mod 256; 2 / 256; 2 mod 256 ] /\
  (pixel_bytes (pack (Vec2.mk 2 2)) = pixel_bytes (pack (Vec2.mk 258 2)) <->
   2 = 2 /\ 2 mod 256 = 258 mod 256).
Proof.
  apply (file_color_of_seed (Vec2.mk 2 2) (Vec2.mk 258 2));
    unfold packable; cbn; lia.
Defined.


Lemma FillCircle_cells_witness :
  exists image',
    FillCircle 10 10 (Vec2.mk 9 9) 4 SEED_MARKER_COLOR scenario_image
    = Ok image' /\
    image_shape 10 10 image' /\
    forall row col,
      cell 10 10 image' row col =
        if FillCircle_covers 10 10 (Vec2.mk 9 9) 4 row col
        then Some SEED_MARKER_COLOR
        else cell 10 10 scenario_image row col.
Proof.
  apply (FillCircle_cells 10 10 (Vec2.mk 9 9) 4 SEED_MARKER_COLOR
           scenario_image).
  apply image_shape_replicate.
Defined.

Lemma FillCircle_nonpositive_radius_witness :
  FillCircle 10 10 (Vec2.mk 5 5) (-3) COLOR_BLACK scenario_image
  = Ok scenario_image.
Proof.
  apply (FillCircle_nonpositive_radius 10 10 (Vec2.mk 5 5) (-3) COLOR_BLACK
           scenario_image).
  - lia.
  - unfold is_int. cbn. change (2 ^ 31) with 2147483648. lia.
  - unfold is_int. cbn. change (2 ^ 31) with 2147483648. lia.
Defined.

Lemma RenderSeedMarkers_cells_witness :
  exists image',
    RenderSeedMarkers 10 10 2 scenario_seeds scenario_image = Ok image' /\
    image_shape 10 10 image' /\
    forall row col,
      ((exists i s, seeds_get scenario_seeds i = Ok s /\
          FillCircle_covers 10 10 s SEED_MARKER_RADIUS row col = true) ->
       cell 10 10 image' row col = Some SEED_MARKER_COLOR) /\
      (~ (exists i s, seeds_get scenario_seeds i = Ok s /\
            FillCircle_covers 10 10 s SEED_MARKER_RADIUS row col = true) ->
       cell 10 10 image' row col = cell 10 10 scenario_image row col).
Proof.
  apply (RenderSeedMarkers_cells 10 10 2 scenario_seeds scenario_image).
  - exact scenario_seeds_shape.
  - apply image_shape_replicate.
Defined.

Lemma RenderSeedMarkers_marks_seed_witness :
  exists image',
    RenderSeedMarkers 10 10 2 scenario_seeds scenario_image = Ok image' /\
    forall i s, seeds_get scenario_seeds i = Ok s ->
      cell 10 10 image' (Vec2.y s) (Vec2.x s) = Some SEED_MARKER_COLOR.
Proof.
  apply (RenderSeedMarkers_marks_seed 10 10 2 scenario_seeds scenario_image).
  - exact scenario_seeds_shape.
  - apply image_shape_replicate.
  - change (2 ^ 15) with 32768. lia.
  - change (2 ^ 15) with 32768. lia.
  - exact scenario_seeds_in_raster.
Defined.


Lemma RenderVoronoi_at_seed_witness :
  exists image',
    RenderVoronoi 10 10 2 scenario_seeds scenario_image = Ok image' /\
    cell 10 10 image' 7 7 = Some (pack (Vec2.mk 7 7)).
Proof.
  apply (RenderVoronoi_at_seed 10 10 2 scenario_seeds scenario_image 1
           (Vec2.mk 7 7)).
  - exact scenario_seeds_shape.
  - change (2 ^ 15) with 32768. lia.
  - change (2 ^ 15) with 32768. lia.
  - exact scenario_seeds_in_raster.
  - apply image_shape_replicate.
  - reflexivity.
Defined.

Lemma GenerateRandomSeeds_draw_order_witness :
  GenerateRandomSeeds 10 10 2 Z lcg_rand scenario_seeds 1
  = Ok (seeds_from 10 10 lcg_rand (length scenario_seeds) 1).
Proof.
  apply (GenerateRandomSeeds_draw_order 10 10 2 Z lcg_rand scenario_seeds 1).
  - lia.
  - lia.
  - exact scenario_seeds_shape.
Defined.

Lemma SaveImageAsPPM_close_error_witness :
  SaveImageAsPPM 10 10 bad_close_os OUTPUT_FILE_PATH scenario_image []
  = (ppm_trace 10 10 OUTPUT_FILE_PATH scenario_image, Stop AssertionFailed).
Proof.
  apply (SaveImageAsPPM_close_error 10 10 bad_close_os OUTPUT_FILE_PATH
           scenario_image).
  - reflexivity.
  - intros n. reflexivity.
  - cbn. lia.
  - apply image_shape_replicate.
Defined.

Lemma SaveImageAsPPM_size_witness :
  exists data,
    SaveImageAsPPM 10 10 quiet_os OUTPUT_FILE_PATH scenario_image []
    = ([ Fopen OUTPUT_FILE_PATH "wb";
         Fprintf OutFile "P6\n" [];
         Fprintf OutFile "%d %d 255\n" [ArgInt 10; ArgInt 10] ]
       ++ (Fwrite OutFile <$> data) ++ [ Fclose OutFile ], Ok tt) /\
    length data = (Z.to_nat 10 * Z.to_nat 10)%nat /\
    Forall (fun bytes => length bytes = 3%nat /\
                         Forall (fun b => 0 <= b < 256) bytes) data.
Proof.
  apply (SaveImageAsPPM_size 10 10 quiet_os OUTPUT_FILE_PATH scenario_image).
  - reflexivity.
  - intros n. reflexivity.
  - reflexivity.
  - apply image_shape_replicate.
Defined.

Lemma SaveImageAsPPM_never_exits_witness :
  NullStream = NullStream \/ NullStream = AssertionFailed \/
  NullStream = OutOfBounds.
Proof.
  apply (SaveImageAsPPM_never_exits 10 10 no_file_os OUTPUT_FILE_PATH
           scenario_image [] [Fopen OUTPUT_FILE_PATH "wb"] NullStream).
  reflexivity.
Defined.

Lemma SaveImageAsPPM_write_error_witness :
  SaveImageAsPPM 10 10 full_disk_os OUTPUT_FILE_PATH scenario_image []
  = ([ Fopen OUTPUT_FILE_PATH "wb";
       Fprintf OutFile "P6\n" [];
       Fprintf OutFile "%d %d 255\n" [ArgInt 10; ArgInt 10] ]
     ++ (Fwrite OutFile ∘ pixel_bytes <$> take 3 (concat scenario_image)),
     Stop AssertionFailed).
Proof.
  apply (SaveImageAsPPM_write_error 10 10 full_disk_os OUTPUT_FILE_PATH
           scenario_image 3).
  - reflexivity.
  - apply image_shape_replicate.
  - assert (length (concat scenario_image) = 100%nat) as -> by reflexivity.
    lia.
  - intros n Hn. destruct n as [|[|[|n]]]; try reflexivity. lia.
  - reflexivity.
Defined.

Lemma RenderSeedMarkers_order_free_witness :
  RenderSeedMarkers 10 10 2 [Vec2.mk 7 7; Vec2.mk 2 2] scenario_image
  = RenderSeedMarkers 10 10 2 scenario_seeds scenario_image.
Proof.
  apply (RenderSeedMarkers_order_free 10 10 2 [Vec2.mk 7 7; Vec2.mk 2 2]
           scenario_seeds scenario_image).
  - apply perm_swap.
  - split; [reflexivity|]. change (2 ^ 31) with 2147483648. lia.
  - apply image_shape_replicate.
Defined.

Lemma main_renders_witness :
  exists final,
    main 10 10 2 Z (fun now => now) lcg_rand quiet_os
    = (ppm_trace 10 10 OUTPUT_FILE_PATH final, Ok 0) /\
    image_shape 10 10 final /\
    forall x y c, cell 10 10 final y x = Some c ->
      pixel_bytes c <> pixel_bytes COLOR_BACKGROUND.
Proof.
  apply (main_renders 10 10 2 Z (fun now => now) lcg_rand quiet_os).
  - exact lcg_rand_range.
  - reflexivity.
  - lia.
  - change (2 ^ 31) with 2147483648. lia.
  - reflexivity.
  - intros n. reflexivity.
  - reflexivity.
Defined.
